(** * s3-diff-uploader: a shallow embedding of [differ.py]

    The program uploads a growing local file to an S3 object.  A run starts a
    multipart upload, reuses the object already stored as part 1 when it is
    larger than [MULTIPART_TRIGGER_SIZE], streams the remaining bytes of the
    local file through a gzip writer into an in-memory buffer, uploads the
    buffer as a part whenever it outgrows the trigger size, and at end of file
    uploads what is left, completes the upload and tags the object with the
    size of the local file.

    Layout of the development:
    - [Py]: the Python built-ins the program calls on strings ([str.endswith],
      [str.lstrip], [int], the [f"{n}"] formatting of an integer) and on files;
    - [S3]: the object store behind [boto3]'s client, as a state with a request
      log and an oracle that answers chosen requests with an error;
    - the classes [S3Object] and [S3DiffUploader], method by method, in a
      state-and-exception monad over the store;
    - the theorems, one group per property. *)

From Stdlib Require Import ZArith Lia String Ascii.
From Stdlib.Strings Require Import Byte.
From stdpp Require Import base option list gmap strings.

Local Open Scope Z_scope.

(** Python's [len], as an integer. *)
Definition len {A : Type} (l : list A) : Z := Z.of_nat (length l).

(* ===================================================================== *)
(** ** Python built-ins                                                   *)
(* ===================================================================== *)

Module Py.

(** [s.endswith(suffix)] *)
Definition endswith (s suffix : string) : bool :=
  let n := String.length s in
  let m := String.length suffix in
  if (m <=? n)%nat then String.eqb (substring (n - m) m s) suffix else false.

(** [s.lstrip(c)] for a single character [c] *)
Fixpoint lstrip (c : ascii) (s : string) : string :=
  match s with
  | String a s' => if Ascii.eqb a c then lstrip c s' else s
  | EmptyString => EmptyString
  end.

(** The strings of the model are made of the 256 characters of [ascii];
    Python's are made of Unicode code points.  The built-ins below are
    Python's on the strings both have, the ASCII ones.  [int] is the one that
    tells the others apart (it reads the decimal digits and the blanks of
    every script): what is said of a string that [int] refuses is said of an
    ASCII string. *)
Definition isascii (s : string) : bool :=
  forallb (fun c => (N_of_ascii c <? 128)%N) (list_ascii_of_string s).

(** The characters [int] strips at both ends of an ASCII string: space, and
    tab to carriage return. *)
Definition is_space (c : ascii) : bool :=
  let n := Z.of_N (N_of_ascii c) in
  (n =? 32) || ((9 <=? n) && (n <=? 13)).

Definition digit_val (c : ascii) : option Z :=
  let n := Z.of_N (N_of_ascii c) in
  if (48 <=? n) && (n <=? 57) then Some (n - 48) else None.

Definition digit_char (d : Z) : ascii := ascii_of_N (Z.to_N (48 + d)).

Fixpoint lstrip_ws (l : list ascii) : list ascii :=
  match l with
  | c :: l' => if is_space c then lstrip_ws l' else l
  | [] => []
  end.

Fixpoint rstrip_ws (l : list ascii) : list ascii :=
  match l with
  | c :: l' =>
      match rstrip_ws l' with
      | [] => if is_space c then [] else [c]
      | r => c :: r
      end
  | [] => []
  end.

(** Digits with single underscores between them, most significant first.
    [seen] tells whether the previous character was a digit: an underscore is
    accepted only after a digit and must be followed by one. *)
Fixpoint parse_digits (acc : Z) (seen : bool) (l : list ascii) : option Z :=
  match l with
  | [] => if seen then Some acc else None
  | c :: l' =>
      if Ascii.eqb c "_" then
        if seen then parse_digits acc false l' else None
      else
        match digit_val c with
        | Some d => parse_digits (10 * acc + d) true l'
        | None => None
        end
  end.

(** The most digits CPython converts between [str] and [int] in base 10
    ([sys.int_info.default_max_str_digits]); beyond, both directions raise
    [ValueError]. *)
Definition MAX_STR_DIGITS : nat := 4300.

Fixpoint count_digits (l : list ascii) : nat :=
  match l with
  | [] => O
  | c :: l' =>
      match digit_val c with
      | Some _ => S (count_digits l')
      | None => count_digits l'
      end
  end.

(** [int(s)] on a string, base 10: [None] stands for [ValueError], which is
    raised for a string that is not a literal and for one of more than
    [MAX_STR_DIGITS] digits. *)
Definition int (s : string) : option Z :=
  match lstrip_ws (rstrip_ws (list_ascii_of_string s)) with
  | [] => None
  | c :: l =>
      if (MAX_STR_DIGITS <? count_digits (c :: l))%nat then None
      else if Ascii.eqb c "+" then parse_digits 0 false l
      else if Ascii.eqb c "-" then Z.opp <$> parse_digits 0 false l
      else parse_digits 0 false (c :: l)
  end.

(** Decimal digits of a non-negative integer, pushed in front of [acc]. *)
Fixpoint digits (fuel : nat) (n : Z) (acc : list ascii) : list ascii :=
  match fuel with
  | O => acc
  | S fuel' =>
      let acc' := digit_char (n mod 10) :: acc in
      if n <? 10 then acc' else digits fuel' (n / 10) acc'
  end.

(** [f"{n}"] for an integer [n] of at most [MAX_STR_DIGITS] digits: its
    decimal digits behind its sign.  (For a longer one CPython raises; the
    program formats the size of a file, which [os.stat] gives in 64 bits.) *)
Definition str (n : Z) : string :=
  let m := Z.abs n in
  let ds := digits (S (Z.to_nat (Z.log2 m))) m [] in
  string_of_list_ascii (if n <? 0 then "-"%char :: ds else ds).

End Py.

(* ===================================================================== *)
(** ** Exceptions and the state-and-exception monad                       *)
(* ===================================================================== *)

(** The exceptions a run can end with.  [ClientError code] is botocore's
    error for a request the service refused, with the service's error code;
    botocore raises its subclass [NoSuchKey] when the code is "NoSuchKey". *)
Inductive exn :=
  | NoSuchKey
  | ClientError (code : string)
  | IndexError
  | ValueError
  | TypeError
  | FileNotFoundError
  | OSError.

Inductive result (A : Type) :=
  | Ok (a : A)
  | Raise (e : exn).
Arguments Ok {A} a.
Arguments Raise {A} e.

(** A computation over a state [S]: it returns a value or raises, and leaves a
    state behind in both cases (what was done before the exception stays). *)
Definition M (S A : Type) : Type := S -> result A * S.

Definition ret {S A} (a : A) : M S A := fun s => (Ok a, s).
Definition raise {S A} (e : exn) : M S A := fun s => (Raise e, s).
Definition bind {S A B} (c : M S A) (k : A -> M S B) : M S B :=
  fun s =>
    match c s with
    | (Ok a, s') => k a s'
    | (Raise e, s') => (Raise e, s')
    end.

Notation "'let*' x ':=' c 'in' k" := (bind c (fun x => k))
  (at level 10, x name, c at level 100, k at level 200).
Notation "'let*' ' pat ':=' c 'in' k" :=
  (bind c (fun x => match x with pat => k end))
  (at level 10, pat pattern, c at level 100, k at level 200).

(* ===================================================================== *)
(** ** The object store                                                   *)
(* ===================================================================== *)

Module S3.

Definition TagSet : Type := list (string * string).

(** A stored object: its bytes and its tags. *)
Record Object := { body : list byte; tagset : TagSet }.

(** A part as [complete_multipart_upload] receives it. *)
Record Part := { PartNumber : Z; ETag : string }.

(** A multipart upload in progress: where it goes and the parts received so
    far, the latest first (a part uploaded again under a number replaces the
    earlier one). *)
Record Upload := {
  up_bucket : string;
  up_key : string;
  up_parts : list (Z * list byte);
  up_open : bool
}.

Inductive request :=
  | HeadObject (bucket key : string)
  | GetObjectTagging (bucket key : string)
  | PutObjectTagging (bucket key : string) (tags : TagSet)
  | CreateMultipartUpload (bucket key : string)
  | UploadPartCopy (bucket key : string) (src_bucket src_key : string)
      (part_number : Z) (upload_id : nat)
  | UploadPart (bucket key : string) (part_number : Z) (upload_id : nat)
      (data : list byte)
  | CompleteMultipartUpload (bucket key : string) (upload_id : nat)
      (parts : list Part).

Inductive outcome :=
  | Served
  | Refused (code : string).

(** The store.  [faults n] is the error code the service answers the [n]-th
    request with, if it is to fail whatever the request (throttling, a
    permission, a quota such as the number of parts or the size of one);
    [etag] is the content identifier the service issues for a part. *)
Record state := {
  objects : gmap (string * string) Object;
  uploads : list Upload;
  history : list (request * outcome);
  faults : nat -> option string;
  etag : list byte -> string
}.

Definition set_objects (f : gmap (string * string) Object -> gmap (string * string) Object)
    (w : state) : state :=
  {| objects := f (objects w); uploads := uploads w; history := history w;
     faults := faults w; etag := etag w |}.

Definition set_uploads (f : list Upload -> list Upload) (w : state) : state :=
  {| objects := objects w; uploads := f (uploads w); history := history w;
     faults := faults w; etag := etag w |}.

Definition log (r : request) (o : outcome) (w : state) : state :=
  {| objects := objects w; uploads := uploads w;
     history := history w ++ [(r, o)];
     faults := faults w; etag := etag w |}.

(** The smallest part the service accepts, the last part of an upload apart. *)
Definition MIN_PART_SIZE : Z := 5242880.

Definition exn_of_code (code : string) : exn :=
  if String.eqb code "NoSuchKey" then NoSuchKey else ClientError code.

(** One request: refused by the oracle, or handled.  A handler answers with
    the response and the new store, or with an error code. *)
Definition call {A : Type} (r : request) (handler : state -> (A * state) + string)
    : M state A :=
  fun w =>
    match faults w (length (history w)) with
    | Some code => (Raise (exn_of_code code), log r (Refused code) w)
    | None =>
        match handler w with
        | inl (a, w') => (Ok a, log r Served w')
        | inr code => (Raise (exn_of_code code), log r (Refused code) w)
        end
    end.

(** The open upload [upload_id], when it is for [bucket]/[key]. *)
Definition find_upload (bucket key : string) (upload_id : nat) (w : state)
    : option Upload :=
  match uploads w !! upload_id with
  | Some u =>
      if up_open u && String.eqb (up_bucket u) bucket && String.eqb (up_key u) key
      then Some u else None
  | None => None
  end.

Definition store_part (n : Z) (data : list byte) (u : Upload) : Upload :=
  {| up_bucket := up_bucket u; up_key := up_key u;
     up_parts := (n, data) :: up_parts u; up_open := up_open u |}.

Definition close_upload (u : Upload) : Upload :=
  {| up_bucket := up_bucket u; up_key := up_key u;
     up_parts := up_parts u; up_open := false |}.

Fixpoint part_data (n : Z) (stored : list (Z * list byte)) : option (list byte) :=
  match stored with
  | (m, d) :: rest => if m =? n then Some d else part_data n rest
  | [] => None
  end.

(** The data of the parts listed, in the order listed: the numbers must
    increase and each part must have been received with the content
    identifier given. *)
Fixpoint gather (tag_of : list byte -> string) (stored : list (Z * list byte))
    (prev : Z) (ps : list Part) : list (list byte) + string :=
  match ps with
  | [] => inl []
  | p :: ps' =>
      if prev <? PartNumber p then
        match part_data (PartNumber p) stored with
        | Some d =>
            if String.eqb (tag_of d) (ETag p) then
              match gather tag_of stored (PartNumber p) ps' with
              | inl ds => inl (d :: ds)
              | inr code => inr code
              end
            else inr "InvalidPart"%string
        | None => inr "InvalidPart"%string
        end
      else inr "InvalidPartOrder"%string
  end.

(** Some part before the last is below the minimum size. *)
Fixpoint too_small (ds : list (list byte)) : bool :=
  match ds with
  | [] | [_] => false
  | d :: ds' => (len d <? MIN_PART_SIZE) || too_small ds'
  end.

Definition head_object (bucket key : string) : M state Z :=
  call (HeadObject bucket key) (fun w =>
    match objects w !! (bucket, key) with
    | Some o => inl (len (body o), w)
    | None => inr "404"%string
    end).

Definition get_object_tagging (bucket key : string) : M state TagSet :=
  call (GetObjectTagging bucket key) (fun w =>
    match objects w !! (bucket, key) with
    | Some o => inl (tagset o, w)
    | None => inr "NoSuchKey"%string
    end).

(** The tag set given replaces the object's. *)
Definition put_object_tagging (bucket key : string) (tags : TagSet) : M state unit :=
  call (PutObjectTagging bucket key tags) (fun w =>
    match objects w !! (bucket, key) with
    | Some o =>
        inl (tt, set_objects <[(bucket, key) := {| body := body o; tagset := tags |}]> w)
    | None => inr "NoSuchKey"%string
    end).

Definition create_multipart_upload (bucket key : string) : M state nat :=
  call (CreateMultipartUpload bucket key) (fun w =>
    inl (length (uploads w),
         set_uploads (fun us => us ++ [{| up_bucket := bucket; up_key := key;
                                         up_parts := []; up_open := true |}]) w)).

(** The bytes of the source object become the part, on the service's side. *)
Definition upload_part_copy (bucket key src_bucket src_key : string)
    (part_number : Z) (upload_id : nat) : M state string :=
  call (UploadPartCopy bucket key src_bucket src_key part_number upload_id) (fun w =>
    match find_upload bucket key upload_id w with
    | Some u =>
        match objects w !! (src_bucket, src_key) with
        | Some o =>
            inl (etag w (body o),
                 set_uploads <[upload_id := store_part part_number (body o) u]> w)
        | None => inr "NoSuchKey"%string
        end
    | None => inr "NoSuchUpload"%string
    end).

Definition upload_part (bucket key : string) (part_number : Z) (upload_id : nat)
    (data : list byte) : M state string :=
  call (UploadPart bucket key part_number upload_id data) (fun w =>
    match find_upload bucket key upload_id w with
    | Some u =>
        inl (etag w data,
             set_uploads <[upload_id := store_part part_number data u]> w)
    | None => inr "NoSuchUpload"%string
    end).

(** The object becomes the parts listed, one after the other; it carries no
    tag (the upload was created without any). *)
Definition complete_multipart_upload (bucket key : string) (upload_id : nat)
    (parts : list Part) : M state unit :=
  call (CompleteMultipartUpload bucket key upload_id parts) (fun w =>
    match find_upload bucket key upload_id w with
    | Some u =>
        match parts with
        | [] => inr "MalformedXML"%string
        | _ =>
            match gather (etag w) (up_parts u) 0 parts with
            | inl ds =>
                if too_small ds then inr "EntityTooSmall"%string
                else
                  inl (tt,
                       set_objects <[(bucket, key) := {| body := concat ds; tagset := [] |}]>
                         (set_uploads <[upload_id := close_upload u]> w))
            | inr code => inr code
            end
        end
    | None => inr "NoSuchUpload"%string
    end).

(** What the client checks before it sends anything.  botocore validates the
    parameters of a call and raises [ParamValidationError], without a
    request, when the key is empty or when the bucket is neither the ARN of an
    access point nor a name of 1 to 255 characters among the letters, the
    digits, ".", "-" and "_".  The store above answers the requests that are
    sent: what is stated below for a destination that need not hold an object
    is stated for a bucket name and a key that pass these checks. *)
Definition bucket_char (c : ascii) : bool :=
  let n := Z.of_N (N_of_ascii c) in
  ((48 <=? n) && (n <=? 57)) || ((65 <=? n) && (n <=? 90)) ||
  ((97 <=? n) && (n <=? 122)) || (n =? 46) || (n =? 45) || (n =? 95).

Definition valid_bucket (bucket : string) : bool :=
  let l := list_ascii_of_string bucket in
  (1 <=? length l)%nat && (length l <=? 255)%nat && forallb bucket_char l.

Definition valid_key (key : string) : bool :=
  negb (String.eqb key EmptyString).

End S3.

(* ===================================================================== *)
(** ** Local files and the gzip writer                                    *)
(* ===================================================================== *)

(** The local file system, read only: the bytes of each file by its path. *)
Abbreviation files := (gmap string (list byte)).

(** [os.stat(path).st_size] *)
Definition os_stat_size {S} (fs : files) (path : string) : M S Z :=
  match fs !! path with
  | Some data => ret (len data)
  | None => raise FileNotFoundError
  end.

(** [open(path, "rb")]: the bytes the reader will deliver. *)
Definition open_rb {S} (fs : files) (path : string) : M S (list byte) :=
  match fs !! path with
  | Some data => ret data
  | None => raise FileNotFoundError
  end.

(** The offsets of a file are 64-bit signed integers ([off_t]). *)
Definition OFF_T_MIN : Z := - 2 ^ 63.
Definition OFF_T_MAX : Z := 2 ^ 63 - 1.

(** [inputFile.seek(offset)] on a file just opened: what is left to read.
    The offset is a Python value, an integer or [None].  An integer that does
    not fit [off_t] is a [ValueError]; a negative one is refused by [lseek]
    ([OSError]); one past the end of the file is accepted and leaves nothing
    to read.  (A file system refuses, with [OSError] too, an offset beyond the
    largest file it can hold, a limit that is never under [2^31 - 1] nor under
    the size of a file it holds; the model is of a file system whose limit is
    [OFF_T_MAX].) *)
Definition seek {S} (data : list byte) (offset : option Z) : M S (list byte) :=
  match offset with
  | None => raise TypeError
  | Some n =>
      if (n <? OFF_T_MIN) || (OFF_T_MAX <? n) then raise ValueError
      else if n <? 0 then raise OSError
      else ret (drop (Z.to_nat n) data)
  end.

(** The size of a read, [inputFile.read(8192)]. *)
Definition READ_SIZE : nat := Z.to_nat 8192.

(** What the successive calls of [inputFile.read(8192)] return before the
    empty result that signals the end of the file. *)
Fixpoint read_all (fuel : nat) (data : list byte) : list (list byte) :=
  match fuel, data with
  | _, [] => []
  | O, _ => []
  | S fuel', _ => take READ_SIZE data :: read_all fuel' (drop READ_SIZE data)
  end.

Definition read_chunks (data : list byte) : list (list byte) :=
  read_all (length data) data.

(** [gzip.GzipFile(fileobj=stream, mode="w")], seen from the buffer it writes
    to.  The library is not part of the repository: a writer is any value of
    this record.  Opening the writer puts [gz_header] into the buffer; each
    [write] hands over the bytes the compressor lets go of at that moment
    (it may keep any amount back); [close] hands over the rest and the
    trailer.  The header carries the time at which the writer was opened, so
    a value of this record is the writer of one run: two runs have two
    writers, which differ at least in their headers. *)
Record GzipFile := {
  gz_state : Type;
  gz_header : list byte;
  gz_open : gz_state;
  gz_write : gz_state -> list byte -> gz_state * list byte;
  gz_close : gz_state -> list byte
}.

(** What a writer puts out between two chunks of a list, from a given state. *)
Fixpoint gz_feed (gz : GzipFile) (c : gz_state gz) (chunks : list (list byte))
    : gz_state gz * list byte :=
  match chunks with
  | [] => (c, [])
  | chunk :: rest =>
      let '(c', out) := gz_write gz c chunk in
      let '(c'', outs) := gz_feed gz c' rest in
      (c'', out ++ outs)
  end.

(** The whole output of one writer that is opened, fed [chunks], and closed:
    one gzip member. *)
Definition gz_member (gz : GzipFile) (chunks : list (list byte)) : list byte :=
  let '(c, outs) := gz_feed gz (gz_open gz) chunks in
  gz_header gz ++ outs ++ gz_close gz c.

(* ===================================================================== *)
(** ** class S3Object                                                     *)
(* ===================================================================== *)

Definition MULTIPART_TRIGGER_SIZE : Z := Z.shiftl 10 19.
Definition S3_TAG_UNCOMPRESSED_SIZE : string := "total_uncompressed_size".

(** The two fields of [urlparse(uri)] the program reads. *)
Record ParseResult := { netloc : string; path : string }.

Module S3Object.

Record t := {
  _bucket : string;
  _key : string;
  _size : option Z
}.

Definition __init__ (url : ParseResult) : t :=
  {| _bucket := netloc url; _key := Py.lstrip "/" (path url); _size := None |}.

Definition set_size (n : option Z) (self : t) : t :=
  {| _bucket := _bucket self; _key := _key self; _size := n |}.

(** [exists]: "not found" in either of its two shapes is the answer [False],
    any other error goes up.  The size is cached on success.  The handle is
    returned as the call leaves it. *)
Definition exists_ (self : t) : M S3.state (bool * t) :=
  fun w =>
    match S3.head_object (_bucket self) (_key self) w with
    | (Ok n, w') => (Ok (true, set_size (Some n) self), w')
    | (Raise NoSuchKey, w') => (Ok (false, self), w')
    | (Raise (ClientError code), w') =>
        if String.eqb code "404" then (Ok (false, self), w')
        else (Raise (ClientError code), w')
    | (Raise e, w') => (Raise e, w')
    end.

Definition size (self : t) (refresh : bool) : M S3.state (option Z * t) :=
  let* self :=
    (if bool_decide (_size self = None) || refresh
     then let* '(_, self') := exists_ self in ret self'
     else ret self) in
  ret (_size self, self).

Definition _get_bytes_from_tag (self : t) : M S3.state Z :=
  let* tags := S3.get_object_tagging (_bucket self) (_key self) in
  match filter (fun tag => tag.1 = S3_TAG_UNCOMPRESSED_SIZE) tags with
  | [] => raise IndexError
  | tag :: _ =>
      match Py.int tag.2 with
      | Some n => ret n
      | None => raise ValueError
      end
  end.

(** The result is the Python value returned: an integer, or [None] when the
    key is not a ".gz" one and no size is cached. *)
Definition get_uncompressed_size (self : t) : M S3.state (option Z) :=
  if Py.endswith (_key self) ".gz" then
    let* n := _get_bytes_from_tag self in ret (Some n)
  else ret (_size self).

Definition set_uncompressed_size (self : t) (size : Z) : M S3.state unit :=
  S3.put_object_tagging (_bucket self) (_key self)
    [(S3_TAG_UNCOMPRESSED_SIZE, Py.str size)].

Definition start_multipart_upload (self : t) : M S3.state nat :=
  S3.create_multipart_upload (_bucket self) (_key self).

Definition complete_multipart_upload (self : t) (upload_id : nat)
    (parts : list S3.Part) : M S3.state unit :=
  S3.complete_multipart_upload (_bucket self) (_key self) upload_id parts.

Definition copy_existing_object (self : t) (upload_id : nat) : M S3.state S3.Part :=
  let* tag :=
    S3.upload_part_copy (_bucket self) (_key self) (_bucket self) (_key self)
      1 upload_id in
  ret {| S3.PartNumber := 1; S3.ETag := tag |}.

(** [part_bytes] is the content of the [BytesIO] buffer; the second component
    of the result is its content when the call returns: the buffer has been
    rewound and truncated. *)
Definition upload_part (self : t) (upload_id : nat) (part_id : Z)
    (part_bytes : list byte) : M S3.state (S3.Part * list byte) :=
  let* tag :=
    S3.upload_part (_bucket self) (_key self) part_id upload_id part_bytes in
  ret ({| S3.PartNumber := part_id; S3.ETag := tag |}, []).

End S3Object.

(* ===================================================================== *)
(** ** class S3DiffUploader                                               *)
(* ===================================================================== *)

Module S3DiffUploader.

Record t := {
  _src : string;
  _s3_target : S3Object.t;
  _compress : bool
}.

Definition __init__ (src : string) (dest : ParseResult) (compress : bool) : t :=
  {| _src := src; _s3_target := S3Object.__init__ dest; _compress := compress |}.

(** The local variables of [upload] when it returns (the method itself returns
    nothing), and the handle as the run leaves it. *)
Record locals := {
  mpu_id : nat;
  starting_byte : option Z;
  parts : list S3.Part;
  uncompressed_file_size : Z;
  target : S3Object.t
}.

Section Upload.

Context (gz : GzipFile).

(** Lines 151 to 154: whether the stored object is reused.  Python's [and]
    asks for the size only when the object exists; comparing [None] with an
    integer is a [TypeError]. *)
Definition plan (target : S3Object.t) (mpu_id : nat)
    : M S3.state (option Z * list S3.Part * S3Object.t) :=
  let* '(found, target) := S3Object.exists_ target in
  let* '(large, target) :=
    (if found then
       let* '(n, target) := S3Object.size target false in
       match n with
       | Some n => ret (MULTIPART_TRIGGER_SIZE <? n, target)
       | None => raise TypeError
       end
     else ret (false, target)) in
  if large then
    let* starting_byte := S3Object.get_uncompressed_size target in
    let* part := S3Object.copy_existing_object target mpu_id in
    ret (starting_byte, [part], target)
  else ret (Some 0, [], target).

(** Lines 166 to 170, at the end of the file: close the writer, upload what
    the buffer holds, complete the upload, write the tag. *)
Definition finish (target : S3Object.t) (mpu_id : nat) (uncompressed_file_size : Z)
    (compressor : gz_state gz) (stream : list byte) (parts : list S3.Part)
    : M S3.state (list S3.Part) :=
  let stream := stream ++ gz_close gz compressor in
  let* '(part, _) := S3Object.upload_part target mpu_id (len parts + 1) stream in
  let parts := parts ++ [part] in
  let* _ := S3Object.complete_multipart_upload target mpu_id parts in
  let* _ := S3Object.set_uncompressed_size target uncompressed_file_size in
  ret parts.

(** Lines 172 to 177, for one chunk: write it, and upload the buffer when it
    has grown past the trigger size.  The result is the writer, the buffer and
    the part list after the chunk. *)
Definition write_chunk (target : S3Object.t) (mpu_id : nat)
    (chunk : list byte) (compressor : gz_state gz) (stream : list byte)
    (parts : list S3.Part)
    : M S3.state (gz_state gz * list byte * list S3.Part) :=
  let '(compressor, out) := gz_write gz compressor chunk in
  let stream := stream ++ out in
  if MULTIPART_TRIGGER_SIZE <? len stream then
    let* '(part, stream) := S3Object.upload_part target mpu_id (len parts + 1) stream in
    ret (compressor, stream, parts ++ [part])
  else ret (compressor, stream, parts).

(** The [while True] loop of lines 160 to 177 over the chunks the reads
    return; the empty list is the end of the file. *)
Fixpoint stream_loop (target : S3Object.t) (mpu_id : nat)
    (uncompressed_file_size : Z) (chunks : list (list byte))
    (compressor : gz_state gz) (stream : list byte) (parts : list S3.Part)
    : M S3.state (list S3.Part) :=
  match chunks with
  | [] => finish target mpu_id uncompressed_file_size compressor stream parts
  | chunk :: rest =>
      let* '(compressor, stream, parts) :=
        write_chunk target mpu_id chunk compressor stream parts in
      stream_loop target mpu_id uncompressed_file_size rest compressor stream parts
  end.

(** [upload], against the local files [fs].  The two [print]s in the middle
    and the timing are left out; the last [print] is kept for the request it
    makes ([size(True)]). *)
Definition upload (self : t) (fs : files) : M S3.state locals :=
  let target := _s3_target self in
  let* mpu_id := S3Object.start_multipart_upload target in
  let stream := gz_header gz in
  let compressor := gz_open gz in
  let* '(starting_byte, parts, target) := plan target mpu_id in
  let* uncompressed_file_size := os_stat_size fs (_src self) in
  let* inputFile := open_rb fs (_src self) in
  let* input := seek inputFile starting_byte in
  let* parts :=
    stream_loop target mpu_id uncompressed_file_size (read_chunks input)
      compressor stream parts in
  let* '(_, target) := S3Object.size target true in
  ret {| mpu_id := mpu_id; starting_byte := starting_byte; parts := parts;
         uncompressed_file_size := uncompressed_file_size; target := target |}.

End Upload.

End S3DiffUploader.

(* ===================================================================== *)
(** ** Vocabulary of the statements                                       *)
(* ===================================================================== *)

(** The buffers a run of the loop uploads, in order: one each time the buffer
    outgrows the trigger size, and the last at the end of the file. *)
Fixpoint payloads (gz : GzipFile) (chunks : list (list byte))
    (compressor : gz_state gz) (stream : list byte) : list (list byte) :=
  match chunks with
  | [] => [stream ++ gz_close gz compressor]
  | chunk :: rest =>
      let '(compressor, out) := gz_write gz compressor chunk in
      let stream := stream ++ out in
      if MULTIPART_TRIGGER_SIZE <? len stream
      then stream :: payloads gz rest compressor []
      else payloads gz rest compressor stream
  end.

(** The part records of buffers uploaded under consecutive numbers from [n]. *)
Fixpoint part_records (tag_of : list byte -> string) (n : Z) (ds : list (list byte))
    : list S3.Part :=
  match ds with
  | [] => []
  | d :: ds' =>
      {| S3.PartNumber := n; S3.ETag := tag_of d |} :: part_records tag_of (n + 1) ds'
  end.

(** The requests that upload them, all served. *)
Fixpoint upload_events (bucket key : string) (upload_id : nat) (n : Z)
    (ds : list (list byte)) : list (S3.request * S3.outcome) :=
  match ds with
  | [] => []
  | d :: ds' =>
      (S3.UploadPart bucket key n upload_id d, S3.Served)
        :: upload_events bucket key upload_id (n + 1) ds'
  end.

(** The parts an upload holds once they are received. *)
Fixpoint stored_after (n : Z) (ds : list (list byte)) (stored : list (Z * list byte))
    : list (Z * list byte) :=
  match ds with
  | [] => stored
  | d :: ds' => stored_after (n + 1) ds' ((n, d) :: stored)
  end.

(** Readings of the request log. *)
Definition served_complete (e : S3.request * S3.outcome) : option (list S3.Part) :=
  match e with
  | (S3.CompleteMultipartUpload _ _ _ ps, S3.Served) => Some ps
  | _ => None
  end.

Definition tagging_request (e : S3.request * S3.outcome) : option S3.TagSet :=
  match e with
  | (S3.PutObjectTagging _ _ tags, _) => Some tags
  | _ => None
  end.

Definition served_part (e : S3.request * S3.outcome) : option Z :=
  match e with
  | (S3.UploadPartCopy _ _ _ _ n _, S3.Served) => Some n
  | (S3.UploadPart _ _ n _ _, S3.Served) => Some n
  | _ => None
  end.

Definition served_data (e : S3.request * S3.outcome) : option (list byte) :=
  match e with
  | (S3.UploadPart _ _ _ _ d, S3.Served) => Some d
  | _ => None
  end.

(** The requests a run added to the log. *)
Definition events_since (w w' : S3.state) : list (S3.request * S3.outcome) :=
  drop (length (S3.history w)) (S3.history w').

(** No request is refused on the service's own account. *)
Definition no_faults (w : S3.state) : Prop := forall i, S3.faults w i = None.

(** The client sends the requests of the handle: its bucket name and its key
    pass the checks botocore makes. *)
Definition addressable (t : S3Object.t) : Prop :=
  S3.valid_bucket (S3Object._bucket t) = true /\
  S3.valid_key (S3Object._key t) = true.

(** A reader [gunzip] undoes a writer: members written one after the other
    read back as their inputs one after the other. *)
Definition codec_ok (gz : GzipFile) (gunzip : list byte -> option (list byte)) : Prop :=
  forall streams : list (list (list byte)),
    gunzip (concat (map (gz_member gz) streams)) = Some (concat (map (@concat byte) streams)).

(** A reader [gunzip] undoes the writers of a family: members written one
    after the other, each by a writer of the family, read back as their
    inputs one after the other. *)
Definition reads_back (gunzip : list byte -> option (list byte))
    (writers : GzipFile -> Prop) : Prop :=
  forall members : list (GzipFile * list (list byte)),
    Forall (fun m => writers m.1) members ->
    gunzip (concat (map (fun m => gz_member m.1 m.2) members))
      = Some (concat (map (fun m => concat m.2) members)).

(** The program run once per version of the local file, a new process each
    time: the uploader is built again for each run, and each run has the
    gzip writer of its moment. *)
Fixpoint runs (src : string) (dest : ParseResult) (compress : bool)
    (versions : list (GzipFile * list byte)) : M S3.state unit :=
  match versions with
  | [] => ret tt
  | (gz, data) :: later =>
      let* _ := S3DiffUploader.upload gz (S3DiffUploader.__init__ src dest compress)
                  {[ src := data ]} in
      runs src dest compress later
  end.

(** Each version of the file extends the one before. *)
Fixpoint append_only (versions : list (list byte)) : Prop :=
  match versions with
  | v1 :: ((v2 :: _) as later) => v1 `prefix_of` v2 /\ append_only later
  | _ => True
  end.

(* ===================================================================== *)
(** ** A writer to run the model with                                     *)
(* ===================================================================== *)

(** A writer in the shape of gzip's that keeps everything back until it is
    closed: a two-byte header, then on [close] each byte written behind a
    [01] marker, and a [00] trailer.  Its members can be put one after the
    other and read back, which is all the program asks of gzip. *)
Module Stored.

Fixpoint stuff (data : list byte) : list byte :=
  match data with
  | [] => [x00]
  | b :: rest => x01 :: b :: stuff rest
  end.

Definition writer : GzipFile :=
  {| gz_state := list byte;
     gz_header := [x1f; x8b];
     gz_open := [];
     gz_write := fun pending chunk => (pending ++ chunk, []);
     gz_close := fun pending => stuff pending |}.

(** The reader: [inside] tells whether a member is open. *)
Fixpoint read (inside : bool) (l : list byte) : option (list byte) :=
  match l with
  | [] => if inside then None else Some []
  | b :: l' =>
      if inside then
        if Byte.eqb b x00 then read false l'
        else if Byte.eqb b x01 then
          match l' with
          | d :: l'' => cons d <$> read true l''
          | [] => None
          end
        else None
      else
        if Byte.eqb b x1f then
          match l' with
          | h :: l'' => if Byte.eqb h x8b then read true l'' else None
          | [] => None
          end
        else None
  end.

Definition gunzip (l : list byte) : option (list byte) := read false l.

(** The same writer with a time stamp of one byte in its header, and the
    reader that skips the stamp. *)
Definition stamped (mtime : byte) : GzipFile :=
  {| gz_state := list byte;
     gz_header := [x1f; x8b; mtime];
     gz_open := [];
     gz_write := fun pending chunk => (pending ++ chunk, []);
     gz_close := fun pending => stuff pending |}.

Fixpoint read_stamped (inside : bool) (l : list byte) : option (list byte) :=
  match l with
  | [] => if inside then None else Some []
  | b :: l' =>
      if inside then
        if Byte.eqb b x00 then read_stamped false l'
        else if Byte.eqb b x01 then
          match l' with
          | d :: l'' => cons d <$> read_stamped true l''
          | [] => None
          end
        else None
      else
        if Byte.eqb b x1f then
          match l' with
          | h :: _ :: l'' => if Byte.eqb h x8b then read_stamped true l'' else None
          | _ => None
          end
        else None
  end.

Definition gunzip_stamped (l : list byte) : option (list byte) := read_stamped false l.

End Stored.

(** A run of [n] zero bytes. *)
Definition zeros (n : Z) : list byte := replicate (Z.to_nat n) x00.

(** An empty store that refuses nothing; the content identifier of a part is
    its size in decimal. *)
Definition empty_store : S3.state :=
  {| S3.objects := ∅; S3.uploads := []; S3.history := [];
     S3.faults := fun _ => None; S3.etag := fun d => Py.str (len d) |}.

(** A store that holds one object and refuses nothing. *)
Definition store_with (bucket key : string) (o : S3.Object) : S3.state :=
  {| S3.objects := {[ (bucket, key) := o ]}; S3.uploads := []; S3.history := [];
     S3.faults := fun _ => None; S3.etag := fun d => Py.str (len d) |}.

(** The same store, refusing every request from the [n]-th on. *)
Definition failing_from (n : nat) (w : S3.state) : S3.state :=
  {| S3.objects := S3.objects w; S3.uploads := S3.uploads w;
     S3.history := S3.history w;
     S3.faults := fun i => if (n <=? i)%nat then Some "InternalError"%string else None;
     S3.etag := S3.etag w |}.

(* ===================================================================== *)
(** ** Facts about the built-ins                                          *)
(* ===================================================================== *)

Module PyFacts.
Import Py.

Definition is_digit (c : ascii) : Prop := exists d, 0 <= d < 10 /\ c = digit_char d.

Ltac digit_cases d :=
  let H := fresh in
  assert (H : d = 0 \/ d = 1 \/ d = 2 \/ d = 3 \/ d = 4 \/ d = 5 \/ d = 6 \/
              d = 7 \/ d = 8 \/ d = 9) by lia;
  repeat (destruct H as [H | H]); subst d.

Lemma digit_val_char d : 0 <= d < 10 -> digit_val (digit_char d) = Some d.
Proof. intros Hd. digit_cases d; reflexivity. Qed.

Lemma digit_plain c :
  is_digit c ->
  is_space c = false /\ Ascii.eqb c "_" = false /\ Ascii.eqb c "+" = false /\
  Ascii.eqb c "-" = false.
Proof. intros (d & Hd & ->). digit_cases d; repeat split; reflexivity. Qed.

Lemma digits_all fuel : forall n acc,
  Forall is_digit acc -> Forall is_digit (digits fuel n acc).
Proof.
  induction fuel as [|fuel IH]; intros n acc Hacc; simpl; [done|].
  assert (Hd : is_digit (digit_char (n mod 10))).
  { exists (n mod 10). split; [apply Z.mod_pos_bound; lia | done]. }
  destruct (n <? 10); [by constructor | apply IH; by constructor].
Qed.

Lemma digits_grow fuel : forall n acc,
  (length acc < length (digits (S fuel) n acc))%nat.
Proof.
  induction fuel as [|fuel IH]; intros n acc.
  - simpl. destruct (n <? 10); simpl; lia.
  - change (digits (S (S fuel)) n acc) with
      (if n <? 10 then digit_char (n mod 10) :: acc
       else digits (S fuel) (n / 10) (digit_char (n mod 10) :: acc)).
    destruct (n <? 10); [simpl; lia|].
    specialize (IH (n / 10) (digit_char (n mod 10) :: acc)). simpl in IH. simpl. lia.
Qed.

Lemma parse_digits_digits fuel : forall n acc seen,
  0 <= n < 2 ^ Z.of_nat (S fuel) ->
  parse_digits 0 seen (digits (S fuel) n acc) = parse_digits n true acc.
Proof.
  assert (Hlast : forall n acc seen, 0 <= n < 10 ->
    parse_digits 0 seen (digit_char (n mod 10) :: acc) = parse_digits n true acc).
  { intros n acc seen Hn. simpl.
    assert (Hd : is_digit (digit_char (n mod 10))).
    { exists (n mod 10). split; [apply Z.mod_pos_bound; lia | done]. }
    destruct (digit_plain _ Hd) as (_ & -> & _).
    rewrite digit_val_char by (apply Z.mod_pos_bound; lia).
    rewrite Z.mod_small by lia. f_equal. }
  induction fuel as [|fuel IH]; intros n acc seen Hn.
  - simpl digits. change (2 ^ Z.of_nat 1) with 2 in Hn.
    destruct (Z.ltb_spec n 10); [|lia]. apply Hlast. lia.
  - change (digits (S (S fuel)) n acc) with
      (if n <? 10 then digit_char (n mod 10) :: acc
       else digits (S fuel) (n / 10) (digit_char (n mod 10) :: acc)).
    destruct (Z.ltb_spec n 10) as [Hlt | Hge]; [apply Hlast; lia|].
    rewrite IH.
    + simpl. assert (Hd : is_digit (digit_char (n mod 10))).
      { exists (n mod 10). split; [apply Z.mod_pos_bound; lia | done]. }
      destruct (digit_plain _ Hd) as (_ & -> & _).
      rewrite digit_val_char by (apply Z.mod_pos_bound; lia).
      f_equal. pose proof (Z.div_mod n 10). lia.
    + split; [apply Z.div_pos; lia|].
      apply Z.div_lt_upper_bound; [lia|].
      rewrite (Nat2Z.inj_succ (S fuel)), Z.pow_succ_r in Hn by lia. lia.
Qed.

Lemma lstrip_ws_plain c l : is_space c = false -> lstrip_ws (c :: l) = c :: l.
Proof. intros H. simpl. by rewrite H. Qed.

Lemma rstrip_ws_plain l : Forall (fun c => is_space c = false) l -> rstrip_ws l = l.
Proof.
  induction 1 as [|c l Hc Hl IH]; [done|].
  simpl. rewrite IH. destruct l; [by rewrite Hc | done].
Qed.

Lemma count_digits_all l : Forall is_digit l -> count_digits l = length l.
Proof.
  induction 1 as [|c l (d & Hd & ->) _ IH]; [done|].
  simpl. rewrite digit_val_char by done. by rewrite IH.
Qed.

(** An integer below [10 ^ k] has at most [k] digits. *)
Lemma digits_length fuel : forall n acc k,
  (0 < k)%nat -> 0 <= n < 10 ^ Z.of_nat k ->
  (length (digits fuel n acc) <= k + length acc)%nat.
Proof.
  induction fuel as [|fuel IH]; intros n acc k Hk Hn; [simpl; lia|].
  change (digits (S fuel) n acc) with
    (if n <? 10 then digit_char (n mod 10) :: acc
     else digits fuel (n / 10) (digit_char (n mod 10) :: acc)).
  destruct (Z.ltb_spec n 10) as [Hlt | Hge]; [simpl; lia|].
  destruct k as [|[|k]]; [lia | change (10 ^ Z.of_nat 1) with 10 in Hn; lia |].
  assert (Hq : 0 <= n / 10 < 10 ^ Z.of_nat (S k)).
  { split; [apply Z.div_pos; lia|]. apply Z.div_lt_upper_bound; [lia|].
    rewrite (Nat2Z.inj_succ (S k)), Z.pow_succ_r in Hn by lia. lia. }
  pose proof (IH (n / 10) (digit_char (n mod 10) :: acc) (S k) ltac:(lia) Hq) as Hl.
  simpl length in Hl. lia.
Qed.

(** Formatting an integer and reading it back gives the integer, within the
    limit on the number of digits. *)
Lemma int_str n : Z.abs n < 10 ^ Z.of_nat MAX_STR_DIGITS -> int (str n) = Some n.
Proof.
  intros Hlim. unfold int, str. rewrite list_ascii_of_string_of_list_ascii.
  set (m := Z.abs n) in *. set (fuel := Z.to_nat (Z.log2 m)).
  assert (Hm : 0 <= m < 2 ^ Z.of_nat (S fuel)).
  { split; [lia|]. unfold fuel. rewrite Nat2Z.inj_succ, Z2Nat.id by apply Z.log2_nonneg.
    destruct (Z.eq_dec m 0) as [-> | Hne]; [done|]. apply Z.log2_spec. lia. }
  pose proof (digits_all (S fuel) m [] ltac:(constructor)) as Hall.
  pose proof (digits_grow fuel m []) as Hlen.
  pose proof (parse_digits_digits fuel m [] false Hm) as Hparse.
  assert (Hmax : (0 < MAX_STR_DIGITS)%nat) by (unfold MAX_STR_DIGITS; lia).
  pose proof (digits_length (S fuel) m [] MAX_STR_DIGITS Hmax
                (conj (proj1 Hm) Hlim)) as Hshort.
  destruct (digits (S fuel) m []) as [|c ds] eqn:Hds; [simpl in Hlen; lia|].
  assert (Hcnt : (MAX_STR_DIGITS <? count_digits (c :: ds))%nat = false).
  { apply Nat.ltb_ge. rewrite (count_digits_all _ Hall).
    rewrite Nat.add_0_r in Hshort. exact Hshort. }
  assert (Hplain : Forall (fun c => is_space c = false) (c :: ds)).
  { eapply Forall_impl; [exact Hall|]. intros x Hx. by destruct (digit_plain x Hx). }
  destruct (digit_plain c (Forall_inv Hall)) as (Hsp & _ & Hplus & Hminus).
  destruct (Z.ltb_spec n 0) as [Hneg | Hpos].
  - rewrite rstrip_ws_plain by (constructor; [reflexivity | exact Hplain]).
    rewrite lstrip_ws_plain by reflexivity.
    change (count_digits ("-"%char :: c :: ds)) with (count_digits (c :: ds)).
    rewrite Hcnt.
    change (Ascii.eqb "-" "+") with false. change (Ascii.eqb "-" "-") with true.
    cbv iota. rewrite Hparse. simpl. f_equal. lia.
  - rewrite rstrip_ws_plain by exact Hplain.
    rewrite lstrip_ws_plain by exact Hsp.
    rewrite Hcnt, Hplus, Hminus, Hparse. simpl. f_equal. lia.
Qed.

(** The size of a file, which fits [off_t], is within that limit. *)
Lemma off_t_within_limit n : 0 <= n <= OFF_T_MAX -> Z.abs n < 10 ^ Z.of_nat MAX_STR_DIGITS.
Proof.
  intros Hn. assert (H : OFF_T_MAX < 10 ^ Z.of_nat MAX_STR_DIGITS).
  { apply Z.ltb_lt. vm_compute. reflexivity. }
  lia.
Qed.

End PyFacts.

(* ===================================================================== *)
(** ** The monad and the store: how a request changes the state           *)
(* ===================================================================== *)

Lemma bind_inv {S A B} (c : M S A) (k : A -> M S B) s r s' :
  bind c k s = (r, s') ->
  (exists a s1, c s = (Ok a, s1) /\ k a s1 = (r, s')) \/
  (exists e, c s = (Raise e, s') /\ r = Raise e).
Proof.
  unfold bind. destruct (c s) as [[a | e] s1]; intros H.
  - left. eauto.
  - right. injection H as <- <-. eauto.
Qed.

Lemma bind_ok {S A B} (c : M S A) (k : A -> M S B) s a s1 :
  c s = (Ok a, s1) -> bind c k s = k a s1.
Proof. intros H. unfold bind. by rewrite H. Qed.

Lemma bind_raise {S A B} (c : M S A) (k : A -> M S B) s e s1 :
  c s = (Raise e, s1) -> bind c k s = (Raise e, s1).
Proof. intros H. unfold bind. by rewrite H. Qed.

(** [step w w' evs]: the state [w'] comes after [w] by the requests [evs]; the
    oracle and the content identifiers are those of [w]. *)
Definition step (w w' : S3.state) (evs : list (S3.request * S3.outcome)) : Prop :=
  S3.history w' = S3.history w ++ evs /\
  S3.faults w' = S3.faults w /\
  S3.etag w' = S3.etag w.

Lemma step_refl w : step w w [].
Proof. unfold step. by rewrite app_nil_r. Qed.

Lemma step_trans w w1 w2 e1 e2 :
  step w w1 e1 -> step w1 w2 e2 -> step w w2 (e1 ++ e2).
Proof.
  intros (H1 & F1 & T1) (H2 & F2 & T2). unfold step.
  rewrite H2, H1, F2, F1, T2, T1, app_assoc. done.
Qed.

Lemma step_events w w' evs : step w w' evs -> events_since w w' = evs.
Proof. intros (H & _). unfold events_since. rewrite H. apply drop_app_length. Qed.

Lemma step_no_faults w w' evs : step w w' evs -> no_faults w -> no_faults w'.
Proof. intros (_ & F & _) H i. rewrite F. apply H. Qed.

Module S3Facts.
Import S3.

Lemma step_log r o w : step w (log r o w) [(r, o)].
Proof. done. Qed.

(** A request is served by its handler, or refused with a code; served, it
    leaves the handler's state with one more line in the log. *)
Lemma call_inv {A} r (h : state -> (A * state) + string) w res w' :
  call r h w = (res, w') ->
  (exists a w1, faults w (length (history w)) = None /\ h w = inl (a, w1) /\
                res = Ok a /\ w' = log r Served w1) \/
  (exists code, res = Raise (exn_of_code code) /\ w' = log r (Refused code) w).
Proof.
  unfold call. destruct (faults w (length (history w))) as [code|].
  - intros [= <- <-]. right. eauto.
  - destruct (h w) as [[a w1] | code]; intros [= <- <-]; [left | right]; eauto 10.
Qed.

Lemma call_ok {A} r (h : state -> (A * state) + string) w a w1 :
  no_faults w -> h w = inl (a, w1) -> call r h w = (Ok a, log r Served w1).
Proof. intros Hf Hh. unfold call. by rewrite Hf, Hh. Qed.

Lemma find_upload_Some bucket key id w u :
  find_upload bucket key id w = Some u ->
  uploads w !! id = Some u /\ up_open u = true /\
  up_bucket u = bucket /\ up_key u = key.
Proof.
  unfold find_upload. destruct (uploads w !! id) as [u'|]; [|done].
  destruct (up_open u') eqn:Ho; [|done]. simpl.
  destruct (String.eqb_spec (up_bucket u') bucket); [|done]. simpl.
  destruct (String.eqb_spec (up_key u') key); [|done].
  intros [= <-]. done.
Qed.

Lemma find_upload_intro bucket key id w u :
  uploads w !! id = Some u -> up_open u = true ->
  up_bucket u = bucket -> up_key u = key ->
  find_upload bucket key id w = Some u.
Proof.
  intros Hu Ho Hb Hk. unfold find_upload. rewrite Hu, Ho, Hb, Hk.
  by rewrite !String.eqb_refl.
Qed.

(** Receiving a part keeps the upload open and findable. *)
Lemma find_upload_store bucket key id w u n d :
  find_upload bucket key id w = Some u ->
  find_upload bucket key id (set_uploads <[id := store_part n d u]> w)
    = Some (store_part n d u).
Proof.
  intros H. destruct (find_upload_Some _ _ _ _ _ H) as (Hu & Ho & Hb & Hk).
  apply find_upload_intro; try done. simpl.
  apply list_lookup_insert_eq. by eapply lookup_lt_Some.
Qed.

Lemma find_upload_log bucket key id r o w :
  find_upload bucket key id (log r o w) = find_upload bucket key id w.
Proof. done. Qed.

End S3Facts.

(* ===================================================================== *)
(** ** The methods of S3Object                                            *)
(* ===================================================================== *)

(** The value of the size tag in a tag set: that of the first tag with the
    key, as the list comprehension of [_get_bytes_from_tag] picks it. *)
Definition tag_value (tags : S3.TagSet) : option string :=
  match filter (fun tag => tag.1 = S3_TAG_UNCOMPRESSED_SIZE) tags with
  | [] => None
  | tag :: _ => Some tag.2
  end.

Module S3ObjectFacts.
Import S3 S3Facts S3Object.

Lemma exists_inv t w res w' :
  exists_ t w = (res, w') ->
  exists o, w' = log (HeadObject (_bucket t) (_key t)) o w /\
    match res with
    | Ok (true, t') =>
        o = Served /\
        exists obj, objects w !! (_bucket t, _key t) = Some obj /\
                    t' = set_size (Some (len (body obj))) t
    | Ok (false, t') => t' = t /\ exists code, o = Refused code
    | Raise _ => exists code, o = Refused code
    end.
Proof.
  unfold exists_, head_object.
  destruct (call _ _ w) as [r w1] eqn:E.
  apply call_inv in E as [(n & w2 & _ & Hh & -> & ->) | (code & -> & ->)].
  - destruct (objects w !! (_bucket t, _key t)) as [obj|] eqn:Ho; [|done].
    injection Hh as <- <-. intros [= <- <-]. exists Served. eauto.
  - unfold exn_of_code. destruct (String.eqb code "NoSuchKey").
    + intros [= <- <-]. exists (Refused code). eauto.
    + destruct (String.eqb code "404"); intros [= <- <-]; exists (Refused code); eauto.
Qed.

(** Without faults the probe tells whether the object is there. *)
Lemma exists_found t w obj :
  no_faults w -> objects w !! (_bucket t, _key t) = Some obj ->
  exists_ t w = (Ok (true, set_size (Some (len (body obj))) t),
                 log (HeadObject (_bucket t) (_key t)) Served w).
Proof.
  intros Hf Ho. unfold exists_, head_object.
  erewrite call_ok; [done | done |]. by rewrite Ho.
Qed.

Lemma exists_absent t w :
  no_faults w -> objects w !! (_bucket t, _key t) = None ->
  exists_ t w = (Ok (false, t),
                 log (HeadObject (_bucket t) (_key t)) (Refused "404") w).
Proof.
  intros Hf Ho. unfold exists_, head_object, call. by rewrite Hf, Ho.
Qed.

(** With a size in the cache and no refresh asked, [size] makes no request. *)
Lemma size_cached t n w :
  _size t = Some n -> size t false w = (Ok (Some n, t), w).
Proof.
  intros H. unfold size, bind, ret. rewrite H.
  rewrite bool_decide_eq_false_2 by done. simpl. by rewrite H.
Qed.

Lemma get_bytes_from_tag_inv t w res w' :
  _get_bytes_from_tag t w = (res, w') ->
  exists o, w' = log (GetObjectTagging (_bucket t) (_key t)) o w /\
    match res with
    | Ok n =>
        o = Served /\
        exists obj v, objects w !! (_bucket t, _key t) = Some obj /\
                      tag_value (tagset obj) = Some v /\ Py.int v = Some n
    | Raise _ => True
    end.
Proof.
  unfold _get_bytes_from_tag, get_object_tagging. intros H.
  apply bind_inv in H as [(tags & w1 & Hc & Hk) | (e & Hc & ->)];
    apply call_inv in Hc as [(a & w2 & _ & Hh & Ha & ->) | (code & He & ->)];
    try discriminate.
  - injection Ha as <-.
    destruct (objects w !! (_bucket t, _key t)) as [obj|] eqn:Ho; [|done].
    injection Hh as <- <-.
    destruct (filter _ (tagset obj)) as [|tag rest] eqn:Hfl.
    + injection Hk as <- <-. eauto.
    + destruct (Py.int tag.2) as [n|] eqn:Hn; injection Hk as <- <-; [|eauto].
      exists Served. split; [done|]. split; [done|].
      exists obj, tag.2. unfold tag_value. rewrite Hfl. done.
  - eauto.
Qed.

Lemma get_bytes_from_tag_ok t w obj v n :
  no_faults w -> objects w !! (_bucket t, _key t) = Some obj ->
  tag_value (tagset obj) = Some v -> Py.int v = Some n ->
  _get_bytes_from_tag t w = (Ok n, log (GetObjectTagging (_bucket t) (_key t)) Served w).
Proof.
  intros Hf Ho Hv Hn. unfold _get_bytes_from_tag, get_object_tagging.
  erewrite bind_ok; [|apply call_ok; [done | by rewrite Ho]].
  unfold tag_value in Hv.
  destruct (filter _ (tagset obj)) as [|tag rest]; [done|].
  injection Hv as <-. by rewrite Hn.
Qed.

(** What [_get_bytes_from_tag] makes of the tags of the object. *)
Lemma get_bytes_from_tag_raises t w obj :
  no_faults w -> objects w !! (_bucket t, _key t) = Some obj ->
  _get_bytes_from_tag t w =
    (match tag_value (tagset obj) with
     | None => Raise IndexError
     | Some v => match Py.int v with Some n => Ok n | None => Raise ValueError end
     end, log (GetObjectTagging (_bucket t) (_key t)) Served w).
Proof.
  intros Hf Hobj. unfold _get_bytes_from_tag, get_object_tagging, tag_value.
  destruct (filter _ (tagset obj)) as [|tag rest] eqn:Hfl.
  - erewrite bind_ok; [|apply call_ok; [done | by rewrite Hobj]].
    cbv beta iota. by rewrite Hfl.
  - erewrite bind_ok; [|apply call_ok; [done | by rewrite Hobj]].
    cbv beta iota. rewrite Hfl. by destruct (Py.int tag.2).
Qed.

Lemma upload_part_inv t id n d w res w' :
  upload_part t id n d w = (res, w') ->
  (exists u, find_upload (_bucket t) (_key t) id w = Some u /\
     res = Ok ({| PartNumber := n; ETag := etag w d |}, []) /\
     w' = log (UploadPart (_bucket t) (_key t) n id d) Served
            (set_uploads <[id := store_part n d u]> w)) \/
  (exists e code, res = Raise e /\
     w' = log (UploadPart (_bucket t) (_key t) n id d) (Refused code) w).
Proof.
  unfold upload_part, S3.upload_part. intros H.
  apply bind_inv in H as [(tag & w1 & Hc & Hk) | (e & Hc & ->)];
    apply call_inv in Hc as [(a & w2 & _ & Hh & Ha & ->) | (code & He & ->)];
    try discriminate.
  - injection Ha as <-.
    destruct (find_upload _ _ id w) as [u|] eqn:Hu; [|done].
    injection Hh as <- <-. injection Hk as <- <-. left. eauto.
  - right. eauto.
Qed.

Lemma upload_part_ok t id n d w u :
  no_faults w -> find_upload (_bucket t) (_key t) id w = Some u ->
  upload_part t id n d w =
    (Ok ({| PartNumber := n; ETag := etag w d |}, []),
     log (UploadPart (_bucket t) (_key t) n id d) Served
       (set_uploads <[id := store_part n d u]> w)).
Proof.
  intros Hf Hu. unfold upload_part, S3.upload_part.
  erewrite bind_ok; [done|]. apply call_ok; [done | by rewrite Hu].
Qed.

Lemma copy_existing_object_inv t id w res w' :
  copy_existing_object t id w = (res, w') ->
  (exists u obj, find_upload (_bucket t) (_key t) id w = Some u /\
     objects w !! (_bucket t, _key t) = Some obj /\
     res = Ok {| PartNumber := 1; ETag := etag w (body obj) |} /\
     w' = log (UploadPartCopy (_bucket t) (_key t) (_bucket t) (_key t) 1 id) Served
            (set_uploads <[id := store_part 1 (body obj) u]> w)) \/
  (exists e code, res = Raise e /\
     w' = log (UploadPartCopy (_bucket t) (_key t) (_bucket t) (_key t) 1 id)
            (Refused code) w).
Proof.
  unfold copy_existing_object, S3.upload_part_copy. intros H.
  apply bind_inv in H as [(tag & w1 & Hc & Hk) | (e & Hc & ->)];
    apply call_inv in Hc as [(a & w2 & _ & Hh & Ha & ->) | (code & He & ->)];
    try discriminate.
  - injection Ha as <-.
    destruct (find_upload _ _ id w) as [u|] eqn:Hu; [|done].
    destruct (objects w !! (_bucket t, _key t)) as [obj|] eqn:Ho; [|done].
    injection Hh as <- <-. injection Hk as <- <-. left. eauto 10.
  - right. eauto.
Qed.

Lemma copy_existing_object_ok t id w u obj :
  no_faults w -> find_upload (_bucket t) (_key t) id w = Some u ->
  objects w !! (_bucket t, _key t) = Some obj ->
  copy_existing_object t id w =
    (Ok {| PartNumber := 1; ETag := etag w (body obj) |},
     log (UploadPartCopy (_bucket t) (_key t) (_bucket t) (_key t) 1 id) Served
       (set_uploads <[id := store_part 1 (body obj) u]> w)).
Proof.
  intros Hf Hu Ho. unfold copy_existing_object, S3.upload_part_copy.
  erewrite bind_ok; [done|]. apply call_ok; [done | by rewrite Hu, Ho].
Qed.

Lemma complete_inv t id ps w res w' :
  complete_multipart_upload t id ps w = (res, w') ->
  (exists u ds, find_upload (_bucket t) (_key t) id w = Some u /\
     gather (etag w) (up_parts u) 0 ps = inl ds /\ too_small ds = false /\
     res = Ok tt /\
     w' = log (CompleteMultipartUpload (_bucket t) (_key t) id ps) Served
            (set_objects <[(_bucket t, _key t) := {| body := concat ds; tagset := [] |}]>
               (set_uploads <[id := close_upload u]> w))) \/
  (exists e code, res = Raise e /\
     w' = log (CompleteMultipartUpload (_bucket t) (_key t) id ps) (Refused code) w).
Proof.
  unfold complete_multipart_upload, S3.complete_multipart_upload. intros H.
  apply call_inv in H as [(a & w2 & _ & Hh & -> & ->) | (code & -> & ->)]; [|right; eauto].
  destruct (find_upload _ _ id w) as [u|] eqn:Hu; [|done].
  destruct ps as [|p ps]; [done|].
  destruct (gather _ _ 0 (p :: ps)) as [ds|] eqn:Hg; [|done].
  destruct (too_small ds) eqn:Hs; [done|].
  injection Hh as <- <-. left. eauto 10.
Qed.

Lemma complete_ok t id ps w u ds :
  no_faults w -> find_upload (_bucket t) (_key t) id w = Some u ->
  ps <> [] -> gather (etag w) (up_parts u) 0 ps = inl ds -> too_small ds = false ->
  complete_multipart_upload t id ps w =
    (Ok tt,
     log (CompleteMultipartUpload (_bucket t) (_key t) id ps) Served
       (set_objects <[(_bucket t, _key t) := {| body := concat ds; tagset := [] |}]>
          (set_uploads <[id := close_upload u]> w))).
Proof.
  intros Hf Hu Hps Hg Hs.
  unfold complete_multipart_upload, S3.complete_multipart_upload.
  apply call_ok; [done|]. rewrite Hu. destruct ps; [done|]. by rewrite Hg, Hs.
Qed.

Lemma set_uncompressed_size_inv t n w res w' :
  set_uncompressed_size t n w = (res, w') ->
  let tags := [(S3_TAG_UNCOMPRESSED_SIZE, Py.str n)] in
  (exists obj, objects w !! (_bucket t, _key t) = Some obj /\ res = Ok tt /\
     w' = log (PutObjectTagging (_bucket t) (_key t) tags) Served
            (set_objects <[(_bucket t, _key t) := {| body := body obj; tagset := tags |}]> w)) \/
  (exists e code, res = Raise e /\
     w' = log (PutObjectTagging (_bucket t) (_key t) tags) (Refused code) w).
Proof.
  unfold set_uncompressed_size, put_object_tagging. intros H.
  apply call_inv in H as [(a & w2 & _ & Hh & -> & ->) | (code & -> & ->)]; [|right; eauto].
  destruct (objects w !! (_bucket t, _key t)) as [obj|] eqn:Ho; [|done].
  injection Hh as <- <-. left. eauto.
Qed.

Lemma set_uncompressed_size_ok t n w obj :
  no_faults w -> objects w !! (_bucket t, _key t) = Some obj ->
  set_uncompressed_size t n w =
    (Ok tt,
     log (PutObjectTagging (_bucket t) (_key t) [(S3_TAG_UNCOMPRESSED_SIZE, Py.str n)]) Served
       (set_objects <[(_bucket t, _key t) :=
          {| body := body obj; tagset := [(S3_TAG_UNCOMPRESSED_SIZE, Py.str n)] |}]> w)).
Proof.
  intros Hf Ho. unfold set_uncompressed_size, put_object_tagging.
  apply call_ok; [done | by rewrite Ho].
Qed.

Lemma start_multipart_upload_inv t w res w' :
  start_multipart_upload t w = (res, w') ->
  (res = Ok (length (uploads w)) /\
   w' = log (CreateMultipartUpload (_bucket t) (_key t)) Served
          (set_uploads (fun us => us ++ [{| up_bucket := _bucket t; up_key := _key t;
                                           up_parts := []; up_open := true |}]) w)) \/
  (exists e code, res = Raise e /\
     w' = log (CreateMultipartUpload (_bucket t) (_key t)) (Refused code) w).
Proof.
  unfold start_multipart_upload, create_multipart_upload. intros H.
  apply call_inv in H as [(a & w2 & _ & Hh & -> & ->) | (code & -> & ->)]; [|right; eauto].
  injection Hh as <- <-. left. done.
Qed.

End S3ObjectFacts.

(* ===================================================================== *)
(** ** Reads, buffers and part lists                                      *)
(* ===================================================================== *)

Lemma READ_SIZE_pos : (0 < READ_SIZE)%nat.
Proof. unfold READ_SIZE. lia. Qed.

(** A seek to an offset from 0 to [OFF_T_MAX] is accepted. *)
Lemma seek_ok {S} (data : list byte) n (w : S) :
  0 <= n <= OFF_T_MAX -> seek data (Some n) w = (Ok (drop (Z.to_nat n) data), w).
Proof.
  intros Hn. unfold seek.
  assert (Hmin : OFF_T_MIN < 0) by done.
  destruct (Z.ltb_spec n OFF_T_MIN); [lia|].
  destruct (Z.ltb_spec OFF_T_MAX n); [lia|].
  destruct (Z.ltb_spec n 0); [lia | done].
Qed.

Lemma read_all_cons fuel b data :
  read_all (S fuel) (b :: data) =
    take READ_SIZE (b :: data) :: read_all fuel (drop READ_SIZE (b :: data)).
Proof. done. Qed.

(** The reads deliver the file, in order and whole. *)
Lemma read_all_concat fuel : forall data,
  (length data <= fuel)%nat -> concat (read_all fuel data) = data.
Proof.
  induction fuel as [|fuel IH]; intros [|b data] Hlen; try done.
  - simpl in Hlen. lia.
  - rewrite read_all_cons, concat_cons, IH; [apply take_drop|].
    rewrite length_drop. pose proof READ_SIZE_pos. simpl in *. lia.
Qed.

Lemma read_chunks_concat data : concat (read_chunks data) = data.
Proof. apply read_all_concat. done. Qed.

Lemma read_chunks_nil : read_chunks [] = [].
Proof. done. Qed.

Lemma len_app {A} (l k : list A) : len (l ++ k) = len l + len k.
Proof. unfold len. rewrite length_app. lia. Qed.

Lemma len_nonneg {A} (l : list A) : 0 <= len l.
Proof. unfold len. lia. Qed.

Lemma len_zeros n : 0 <= n -> len (zeros n) = n.
Proof. intros H. unfold len, zeros. rewrite length_replicate. lia. Qed.

Lemma trigger_value : MULTIPART_TRIGGER_SIZE = 5242880.
Proof. reflexivity. Qed.

Section PayloadFacts.

Context (gz : GzipFile).

Lemma payloads_nonempty chunks : forall c s, payloads gz chunks c s <> [].
Proof.
  induction chunks as [|chunk rest IH]; intros c s; simpl; [done|].
  destruct (gz_write gz c chunk) as [c' out].
  destruct (MULTIPART_TRIGGER_SIZE <? len (s ++ out)); [done | apply IH].
Qed.

(** Put end to end, the buffers uploaded are what was in the buffer, what the
    writer let go of chunk after chunk, and what it gave on closing. *)
Lemma payloads_concat chunks : forall c s,
  concat (payloads gz chunks c s) =
    s ++ (gz_feed gz c chunks).2 ++ gz_close gz (gz_feed gz c chunks).1.
Proof.
  induction chunks as [|chunk rest IH]; intros c s; simpl.
  - by rewrite app_nil_r.
  - destruct (gz_write gz c chunk) as [c' out].
    destruct (gz_feed gz c' rest) as [c'' outs] eqn:Hfeed.
    specialize (IH c'). rewrite Hfeed in IH. simpl in *.
    destruct (MULTIPART_TRIGGER_SIZE <? len (s ++ out)).
    + rewrite concat_cons, IH. simpl. by rewrite <- !app_assoc.
    + rewrite IH. by rewrite <- !app_assoc.
Qed.

(** Every buffer uploaded before the last is larger than the trigger size. *)
Lemma payloads_sizes chunks : forall c s,
  exists init final,
    payloads gz chunks c s = init ++ [final] /\
    Forall (fun d => MULTIPART_TRIGGER_SIZE < len d) init.
Proof.
  induction chunks as [|chunk rest IH]; intros c s; simpl.
  - exists [], (s ++ gz_close gz c). done.
  - destruct (gz_write gz c chunk) as [c' out].
    destruct (Z.ltb_spec MULTIPART_TRIGGER_SIZE (len (s ++ out))) as [Hbig | Hsmall].
    + destruct (IH c' []) as (init & final & -> & Hall).
      exists ((s ++ out) :: init), final. split; [done | by constructor].
    + apply IH.
Qed.

(** A writer that lets nothing go before it is closed fills one buffer only,
    as long as its header fits under the trigger size. *)
Lemma payloads_held_back chunks : forall c s,
  (forall c chunk, (gz_write gz c chunk).2 = []) ->
  len s <= MULTIPART_TRIGGER_SIZE ->
  payloads gz chunks c s = [s ++ gz_close gz (gz_feed gz c chunks).1].
Proof.
  induction chunks as [|chunk rest IH]; intros c s Hheld Hs; simpl; [done|].
  pose proof (Hheld c chunk) as Hout.
  destruct (gz_write gz c chunk) as [c' out]. simpl in Hout. subst out.
  rewrite app_nil_r.
  destruct (Z.ltb_spec MULTIPART_TRIGGER_SIZE (len s)); [lia|].
  rewrite IH by done. by destruct (gz_feed gz c' rest).
Qed.

Lemma gz_member_payloads chunks :
  concat (payloads gz chunks (gz_open gz) (gz_header gz)) = gz_member gz chunks.
Proof.
  rewrite payloads_concat. unfold gz_member.
  by destruct (gz_feed gz (gz_open gz) chunks).
Qed.

End PayloadFacts.

Lemma part_records_numbers tag_of ds : forall n,
  map S3.PartNumber (part_records tag_of n ds) = seqZ n (len ds).
Proof.
  induction ds as [|d ds IH]; intros n; [done|].
  simpl. rewrite IH. unfold len. simpl length.
  rewrite (seqZ_cons n) by lia. do 2 f_equal; lia.
Qed.

Lemma part_records_length tag_of ds : forall n,
  length (part_records tag_of n ds) = length ds.
Proof. induction ds as [|d ds IH]; intros n; simpl; [done | by rewrite IH]. Qed.

Lemma part_records_nonempty tag_of n ds : ds <> [] -> part_records tag_of n ds <> [].
Proof. by destruct ds. Qed.

Lemma upload_events_parts bucket key id ds : forall n,
  omap served_part (upload_events bucket key id n ds) = seqZ n (len ds).
Proof.
  induction ds as [|d ds IH]; intros n; [done|].
  simpl. rewrite IH. unfold len. simpl length.
  rewrite (seqZ_cons n) by lia. do 2 f_equal; lia.
Qed.

Lemma upload_events_data bucket key id ds : forall n,
  omap served_data (upload_events bucket key id n ds) = ds.
Proof. induction ds as [|d ds IH]; intros n; simpl; [done | by rewrite IH]. Qed.

Lemma upload_events_complete bucket key id ds : forall n,
  omap served_complete (upload_events bucket key id n ds) = [].
Proof. induction ds as [|d ds IH]; intros n; simpl; [done | by rewrite IH]. Qed.

Lemma upload_events_tagging bucket key id ds : forall n,
  omap tagging_request (upload_events bucket key id n ds) = [].
Proof. induction ds as [|d ds IH]; intros n; simpl; [done | by rewrite IH]. Qed.

Module GatherFacts.
Import S3.

Lemma part_data_stored_below ds : forall n m stored,
  m < n -> part_data m (stored_after n ds stored) = part_data m stored.
Proof.
  induction ds as [|d ds IH]; intros n m stored Hm; simpl; [done|].
  rewrite IH by lia. simpl. destruct (Z.eqb_spec n m); [lia | done].
Qed.

Lemma part_data_stored_at ds : forall n stored i d,
  ds !! i = Some d -> part_data (n + Z.of_nat i) (stored_after n ds stored) = Some d.
Proof.
  induction ds as [|d0 ds IH]; intros n stored i d Hi; [done|].
  destruct i as [|i].
  - injection Hi as ->. simpl stored_after.
    rewrite Z.add_0_r, part_data_stored_below by lia.
    simpl. by rewrite Z.eqb_refl.
  - change (ds !! i = Some d) in Hi. simpl stored_after.
    replace (n + Z.of_nat (S i)) with (n + 1 + Z.of_nat i) by lia.
    by apply IH.
Qed.

(** Parts received under consecutive numbers are found again, in order. *)
Lemma gather_records tag_of stored ds : forall n prev,
  prev < n ->
  (forall i d, ds !! i = Some d -> part_data (n + Z.of_nat i) stored = Some d) ->
  gather tag_of stored prev (part_records tag_of n ds) = inl ds.
Proof.
  induction ds as [|d ds IH]; intros n prev Hprev Hfind; [done|].
  simpl. destruct (Z.ltb_spec prev n); [|lia].
  pose proof (Hfind 0%nat d eq_refl) as H0. rewrite Z.add_0_r in H0.
  rewrite H0, String.eqb_refl, IH; [done | lia |].
  intros i d' Hi. specialize (Hfind (S i) d' Hi).
  replace (n + 1 + Z.of_nat i) with (n + Z.of_nat (S i)) by lia. done.
Qed.

Lemma too_small_last ds x :
  Forall (fun d => MIN_PART_SIZE <= len d) ds -> too_small (ds ++ [x]) = false.
Proof.
  induction 1 as [|d ds Hd Hds IH]; [done|].
  simpl. destruct (ds ++ [x]) eqn:E; [by destruct ds|].
  rewrite IH, orb_false_r. apply Z.ltb_ge. done.
Qed.

End GatherFacts.

(* ===================================================================== *)
(** ** The loop, whatever the service answers                             *)
(* ===================================================================== *)

(** Closes [step w w' evs] when [w'] is [w] under some [log]s and updates. *)
Ltac step_tac :=
  unfold step; simpl; rewrite <- ?app_assoc; simpl; done.

Section Loop.

Import S3 S3Facts S3Object S3ObjectFacts S3DiffUploader.

Context (gz : GzipFile) (t : S3Object.t) (id : nat) (total : Z).

Let bucket := _bucket t.
Let key := _key t.
Let tags : TagSet := [(S3_TAG_UNCOMPRESSED_SIZE, Py.str total)].

(** One chunk: either the buffer stays under the trigger size and nothing is
    requested, or one upload is requested for the whole buffer. *)
Lemma write_chunk_inv chunk c s ps w res w' :
  write_chunk gz t id chunk c s ps w = (res, w') ->
  let c' := (gz_write gz c chunk).1 in
  let s' := s ++ (gz_write gz c chunk).2 in
  let n := len ps + 1 in
  if MULTIPART_TRIGGER_SIZE <? len s' then
    (exists u, find_upload bucket key id w = Some u /\
       res = Ok (c', [], ps ++ [{| PartNumber := n; ETag := etag w s' |}]) /\
       w' = log (UploadPart bucket key n id s') Served
              (set_uploads <[id := store_part n s' u]> w)) \/
    (exists e code, res = Raise e /\
       w' = log (UploadPart bucket key n id s') (Refused code) w)
  else res = Ok (c', s', ps) /\ w' = w.
Proof.
  unfold write_chunk. destruct (gz_write gz c chunk) as [c' out]. simpl.
  destruct (MULTIPART_TRIGGER_SIZE <? len (s ++ out)).
  - intros H.
    apply bind_inv in H as [([p buf] & w1 & Hc & Hk) | (e & Hc & ->)];
      apply upload_part_inv in Hc as [(u & Hu & Hr & ->) | (e' & code & Hr & ->)];
      try discriminate.
    + injection Hr as -> ->. injection Hk as <- <-. left. eauto.
    + right. eauto.
  - intros [= <- <-]. done.
Qed.

(** The end of the file: how far the three requests got. *)
Lemma finish_inv c s ps w res w' :
  finish gz t id total c s ps w = (res, w') ->
  let s' := s ++ gz_close gz c in
  let n := len ps + 1 in
  let ps' := ps ++ [{| PartNumber := n; ETag := etag w s' |}] in
  let up := (UploadPart bucket key n id s', Served) in
  (exists e o, res = Raise e /\ objects w' = objects w /\
     (step w w' [(UploadPart bucket key n id s', Refused o)] \/
      step w w' [up; (CompleteMultipartUpload bucket key id ps', Refused o)])) \/
  (exists e o, res = Raise e /\
     step w w' [up; (CompleteMultipartUpload bucket key id ps', Served);
                (PutObjectTagging bucket key tags, Refused o)]) \/
  (exists u ds, res = Ok ps' /\
     find_upload bucket key id w = Some u /\
     gather (etag w) ((n, s') :: up_parts u) 0 ps' = inl ds /\ too_small ds = false /\
     step w w' [up; (CompleteMultipartUpload bucket key id ps', Served);
                (PutObjectTagging bucket key tags, Served)] /\
     objects w' = <[(bucket, key) := {| body := concat ds; tagset := tags |}]> (objects w)).
Proof.
  unfold finish. intros H.
  apply bind_inv in H as [([p buf] & w1 & Hc & H) | (e & Hc & ->)];
    apply upload_part_inv in Hc as [(u & Hu & Hr & ->) | (e' & code & Hr & ->)];
    try discriminate.
  2:{ left. exists e, code. split; [done|]. split; [done|]. left. step_tac. }
  injection Hr as -> ->.
  apply bind_inv in H as [([] & w2 & Hc & H) | (e & Hc & ->)];
    apply complete_inv in Hc
      as [(u' & ds & Hu' & Hg & Hs & Hr2 & ->) | (e' & code & Hr2 & ->)];
    try discriminate.
  2:{ left. exists e, code. split; [done|]. split; [done|]. right. step_tac. }
  rewrite find_upload_log, (find_upload_store _ _ _ _ _ _ _ Hu) in Hu'.
  injection Hu' as <-. simpl in Hg.
  apply bind_inv in H as [([] & w3 & Hc & H) | (e & Hc & ->)];
    apply set_uncompressed_size_inv in Hc
      as [(obj & Ho & Hr3 & ->) | (e' & code & Hr3 & ->)];
    try discriminate.
  2:{ right. left. exists e, code. split; [done|]. step_tac. }
  injection H as <- <-. right. right. exists u, ds.
  simpl in Ho. rewrite lookup_insert_eq in Ho. injection Ho as <-.
  split; [done|]. split; [done|]. split; [done|]. split; [done|].
  split; [step_tac|]. simpl. by rewrite insert_insert_eq.
Qed.

(** The loop.  A run of it that returns has uploaded the buffers [payloads]
    lists under the numbers that follow the parts it started with, then
    completed the upload with the whole list and written the tag; the object
    is then the parts the upload held, end to end.  A run that raises either
    left the objects alone, with no upload completed and no tag written, or
    was refused the tag after the upload was completed. *)
Lemma stream_loop_inv chunks : forall c s ps w res w',
  stream_loop gz t id total chunks c s ps w = (res, w') ->
  exists evs, step w w' evs /\
    match res with
    | Ok ps' =>
        let ds := payloads gz chunks c s in
        let n := len ps + 1 in
        ps' = ps ++ part_records (etag w) n ds /\
        evs = upload_events bucket key id n ds ++
              [(CompleteMultipartUpload bucket key id ps', Served);
               (PutObjectTagging bucket key tags, Served)] /\
        exists u gathered,
          find_upload bucket key id w = Some u /\
          gather (etag w) (stored_after n ds (up_parts u)) 0 ps' = inl gathered /\
          too_small gathered = false /\
          objects w' =
            <[(bucket, key) := {| body := concat gathered; tagset := tags |}]> (objects w)
    | Raise _ =>
        (objects w' = objects w /\ omap served_complete evs = [] /\
         omap tagging_request evs = []) \/
        (exists pre ps' o,
           evs = pre ++ [(CompleteMultipartUpload bucket key id ps', Served);
                         (PutObjectTagging bucket key tags, Refused o)] /\
           omap tagging_request pre = [])
    end.
Proof.
  induction chunks as [|chunk rest IH]; intros c s ps w res w' H.
  - simpl in H. apply finish_inv in H.
    destruct H as [(e & o & -> & Ho & [Hs | Hs]) | [(e & o & -> & Hs) |
                   (u & ds & -> & Hu & Hg & Hsm & Hs & Ho)]].
    + eexists. split; [exact Hs|]. left. done.
    + eexists. split; [exact Hs|]. left. done.
    + eexists. split; [exact Hs|]. right.
      eexists [_], _, o. split; [done | done].
    + eexists. split; [exact Hs|]. simpl. split; [done|]. split; [done|].
      exists u, ds. done.
  - simpl in H.
    apply bind_inv in H as [([[c1 s1] ps1] & w1 & Hc & H) | (e & Hc & ->)];
      apply write_chunk_inv in Hc; simpl in Hc;
      destruct (gz_write gz c chunk) as [c' out] eqn:Hw; simpl in Hc;
      destruct (MULTIPART_TRIGGER_SIZE <? len (s ++ out)) eqn:Hbig.
    + (* the buffer was uploaded, the loop went on *)
      destruct Hc as [(u & Hu & Hr & ->) | (e' & code & Hr & _)]; [|discriminate].
      injection Hr as -> -> ->.
      apply IH in H as (evs & Hs & Hres).
      exists ((UploadPart bucket key (len ps + 1) id (s ++ out), Served) :: evs).
      split; [exact (step_trans _ _ _ _ _ (step_log _ _ _) Hs)|].
      destruct res as [ps' | e]; [|].
      * simpl in Hres. destruct Hres as (-> & -> & u1 & g & Hu1 & Hg & Hsm & Ho).
        rewrite find_upload_log, (find_upload_store _ _ _ _ _ _ _ Hu) in Hu1.
        injection Hu1 as <-.
        simpl. rewrite Hw, Hbig. simpl.
        rewrite len_app in *. change (len [_]) with 1 in *.
        rewrite <- app_assoc. simpl. split; [done|]. split; [done|].
        exists u, g. rewrite <- app_assoc in Hg. done.
      * destruct Hres as [(Ho & Hnc & Hnt) | (pre & ps' & o & -> & Hnt)].
        -- left. simpl. done.
        -- right. eexists (_ :: pre), ps', o. split; [done|]. simpl. done.
    + (* nothing was requested *)
      destruct Hc as [Hr ->]. injection Hr as -> -> ->.
      apply IH in H as (evs & Hs & Hres).
      exists evs. split; [done|].
      destruct res as [ps' | e]; [|done].
      simpl. rewrite Hw, Hbig. done.
    + (* the upload of the buffer was refused *)
      destruct Hc as [(u & Hu & Hr & _) | (e' & code & Hr & ->)]; [discriminate|].
      eexists. split; [apply step_log|]. left. done.
    + destruct Hc as [Hr _]. discriminate.
Qed.

End Loop.

(* ===================================================================== *)
(** ** The plan, whatever the service answers                             *)
(* ===================================================================== *)

Section Plan.

Import S3 S3Facts S3Object S3ObjectFacts S3DiffUploader.


(** What [plan] can have done when it returns: either nothing but the probe,
    and the run starts from byte 0 with no part; or the probe found an object
    larger than the trigger size, the object was copied as part 1, and the run
    starts from what [get_uncompressed_size] returned: the cached size for a
    key that does not end in ".gz", the integer in the tag for one that
    does. *)
Lemma plan_inv t id w res w' :
  plan t id w = (res, w') ->
  let bucket := _bucket t in
  let key := _key t in
  let head o := (HeadObject bucket key, o) in
  let copy := (UploadPartCopy bucket key bucket key 1 id, Served) in
  exists evs, step w w' evs /\ objects w' = objects w /\
    omap served_complete evs = [] /\ omap tagging_request evs = [] /\
    omap served_data evs = [] /\
    match res with
    | Ok (start, ps, t') =>
        _bucket t' = bucket /\ _key t' = key /\
        ((exists o, start = Some 0 /\ ps = [] /\ evs = [head o] /\
            uploads w' = uploads w) \/
         (exists obj u,
            objects w !! (bucket, key) = Some obj /\
            MULTIPART_TRIGGER_SIZE < len (body obj) /\
            find_upload bucket key id w = Some u /\
            ps = [{| PartNumber := 1; ETag := etag w (body obj) |}] /\
            uploads w' = <[id := store_part 1 (body obj) u]> (uploads w) /\
            ((Py.endswith key ".gz" = false /\ start = Some (len (body obj)) /\
              evs = [head Served; copy]) \/
             (Py.endswith key ".gz" = true /\
              exists v n, tag_value (tagset obj) = Some v /\ Py.int v = Some n /\
                          start = Some n /\
                          evs = [head Served; (GetObjectTagging bucket key, Served); copy]))))
    | Raise _ => uploads w' = uploads w
    end.
Proof.
  intros H bucket key head copy. unfold plan in H.
  apply bind_inv in H as [([found t1] & w1 & Hc & H) | (e & Hc & ->)];
    apply exists_inv in Hc as (o & -> & Hex).
  2:{ exists [head o]. split; [step_tac|]. done. }
  destruct found.
  - (* the object is there *)
    destruct Hex as (-> & obj & Hobj & ->).
    rewrite bind_ok with (a := (MULTIPART_TRIGGER_SIZE <? len (body obj),
                                set_size (Some (len (body obj))) t))
                         (s1 := log (HeadObject (_bucket t) (_key t)) Served w) in H.
    2:{ erewrite bind_ok; [|by apply size_cached]. done. }
    destruct (Z.ltb_spec MULTIPART_TRIGGER_SIZE (len (body obj))) as [Hbig | Hsmall].
    2:{ injection H as <- <-. exists [head Served]. split; [step_tac|].
        do 4 (split; [done|]). split; [done|]. split; [done|]. left. eauto. }
    apply bind_inv in H as [(start & w2 & Hc & H) | (e & Hc & ->)].
    + (* the size was read *)
      unfold get_uncompressed_size in Hc. cbn [_key _bucket _size set_size] in Hc.
      fold key in Hc.
      destruct (Py.endswith key ".gz") eqn:Hgz.
      * apply bind_inv in Hc as [(n & w3 & Hc & Hr) | (e & Hc & Hr)]; [|discriminate].
        injection Hr as <- <-.
        apply get_bytes_from_tag_inv in Hc as (o & -> & Ho & obj' & v & Hobj' & Hv & Hn).
        subst o. simpl in Hobj'. fold bucket key in Hobj'.
        fold bucket key in Hobj. rewrite Hobj in Hobj'. injection Hobj' as <-.
        apply bind_inv in H as [(p & w4 & Hc & H) | (e & Hc & ->)];
          apply copy_existing_object_inv in Hc
            as [(u & obj' & Hu & Hobj' & Hr & ->) | (e' & code & Hr & ->)];
          try discriminate.
        -- simpl in Hobj'. fold bucket key in Hobj'. rewrite Hobj in Hobj'.
           injection Hobj' as <-. injection Hr as ->. injection H as <- <-.
           exists [head Served; (GetObjectTagging bucket key, Served); copy].
           split; [step_tac|]. do 4 (split; [done|]). split; [done|]. split; [done|].
           right. exists obj, u. do 5 (split; [done|]). right. split; [done|].
           exists v, n. done.
        -- exists [head Served; (GetObjectTagging bucket key, Served);
                   (UploadPartCopy bucket key bucket key 1 id, Refused code)].
           split; [step_tac|]. done.
      * injection Hc as <- <-.
        apply bind_inv in H as [(p & w4 & Hc & H) | (e & Hc & ->)];
          apply copy_existing_object_inv in Hc
            as [(u & obj' & Hu & Hobj' & Hr & ->) | (e' & code & Hr & ->)];
          try discriminate.
        -- simpl in Hobj'. fold bucket key in Hobj, Hobj'. rewrite Hobj in Hobj'.
           injection Hobj' as <-. injection Hr as ->. injection H as <- <-.
           exists [head Served; copy].
           split; [step_tac|]. do 4 (split; [done|]). split; [done|]. split; [done|].
           right. exists obj, u. do 5 (split; [done|]). left. done.
        -- exists [head Served; (UploadPartCopy bucket key bucket key 1 id, Refused code)].
           split; [step_tac|]. done.
    + (* reading the size raised *)
      unfold get_uncompressed_size in Hc. cbn [_key _bucket _size set_size] in Hc.
      destruct (Py.endswith (_key t) ".gz").
      * apply bind_inv in Hc as [(n & w3 & Hc & Hr) | (e' & Hc & Hr)]; [discriminate|].
        apply get_bytes_from_tag_inv in Hc as (o & -> & _).
        exists [head Served; (GetObjectTagging bucket key, o)].
        split; [step_tac|]. done.
      * discriminate.
  - (* the probe said no *)
    destruct Hex as (-> & code & ->).
    injection H as <- <-. exists [head (Refused code)]. split; [step_tac|].
    do 4 (split; [done|]). split; [done|]. split; [done|]. left. eauto.
Qed.

End Plan.

(* ===================================================================== *)
(** ** A whole run that returns                                           *)
(* ===================================================================== *)

Section Run.

Import S3 S3Facts S3Object S3ObjectFacts S3DiffUploader GatherFacts.

Context (gz : GzipFile).

Lemma size_refresh_inv t w res w' :
  size t true w = (res, w') ->
  exists o, w' = log (HeadObject (_bucket t) (_key t)) o w.
Proof.
  unfold size. rewrite orb_true_r. intros H.
  apply bind_inv in H as [(t1 & w1 & Hc & H) | (e & Hc & ->)].
  - injection H as <- <-.
    apply bind_inv in Hc as [([found t2] & w2 & Hc & H) | (e & Hc & Hr)];
      [|discriminate].
    injection H as <- <-. apply exists_inv in Hc as (o & -> & _). eauto.
  - apply bind_inv in Hc as [([found t2] & w2 & Hc & H) | (e' & Hc & Hr)];
      [discriminate|].
    apply exists_inv in Hc as (o & -> & _). eauto.
Qed.

(** The upload a run has just created is open and empty. *)
Lemma find_upload_created bucket key w :
  find_upload bucket key (length (uploads w))
    (log (CreateMultipartUpload bucket key) Served
       (set_uploads (fun us => us ++ [{| up_bucket := bucket; up_key := key;
                                         up_parts := []; up_open := true |}]) w))
  = Some {| up_bucket := bucket; up_key := key; up_parts := []; up_open := true |}.
Proof.
  apply find_upload_intro; try done. simpl.
  rewrite lookup_app_r by lia. by rewrite Nat.sub_diag.
Qed.

(** A run that returns: what it read, what it requested, and what the object
    is afterwards.  [s] is the byte the run started from; the buffers uploaded
    are those of the loop over the file from that byte on. *)
Lemma upload_ok_inv self fs w rep w' :
  upload gz self fs w = (Ok rep, w') ->
  let t := _s3_target self in
  let bucket := _bucket t in
  let key := _key t in
  let id := length (uploads w) in
  exists data s head1 head2,
    fs !! _src self = Some data /\
    mpu_id rep = id /\ starting_byte rep = Some s /\ 0 <= s /\
    uncompressed_file_size rep = len data /\
    faults w' = faults w /\ etag w' = etag w /\
    let ds := payloads gz (read_chunks (drop (Z.to_nat s) data))
                (gz_open gz) (gz_header gz) in
    let tags := [(S3_TAG_UNCOMPRESSED_SIZE, Py.str (len data))] in
    let create := (CreateMultipartUpload bucket key, Served) in
    let head o := (HeadObject bucket key, o) in
    let copy := (UploadPartCopy bucket key bucket key 1 id, Served) in
    let tail := [(CompleteMultipartUpload bucket key id (parts rep), Served);
                 (PutObjectTagging bucket key tags, Served); head head2] in
    (s = 0 /\ parts rep = part_records (etag w) 1 ds /\
     events_since w w' = [create; head head1] ++ upload_events bucket key id 1 ds ++ tail /\
     objects w' = <[(bucket, key) := {| body := concat ds; tagset := tags |}]> (objects w)) \/
    (exists obj,
       objects w !! (bucket, key) = Some obj /\
       MULTIPART_TRIGGER_SIZE < len (body obj) /\
       parts rep = {| PartNumber := 1; ETag := etag w (body obj) |}
                     :: part_records (etag w) 2 ds /\
       objects w' = <[(bucket, key) := {| body := body obj ++ concat ds; tagset := tags |}]>
                      (objects w) /\
       ((Py.endswith key ".gz" = false /\ s = len (body obj) /\
         events_since w w' =
           [create; head Served; copy] ++ upload_events bucket key id 2 ds ++ tail) \/
        (Py.endswith key ".gz" = true /\
         exists v, tag_value (tagset obj) = Some v /\ Py.int v = Some s /\
           events_since w w' =
             [create; head Served; (GetObjectTagging bucket key, Served); copy]
             ++ upload_events bucket key id 2 ds ++ tail))).
Proof.
  intros H t bucket key id. unfold upload in H. fold t in H.
  apply bind_inv in H as [(id' & w1 & Hc & H) | (e & Hc & Hr)]; [|discriminate].
  apply start_multipart_upload_inv in Hc as [(Hid & ->) | (e & code & Hr & _)];
    [|discriminate].
  injection Hid as ->. fold id bucket key in H.
  set (w1 := log _ Served _) in H.
  assert (Hs1 : step w w1 [(CreateMultipartUpload bucket key, Served)]) by step_tac.
  assert (Hnew : find_upload bucket key id w1 =
                 Some {| up_bucket := bucket; up_key := key;
                         up_parts := []; up_open := true |})
    by apply find_upload_created.
  apply bind_inv in H as [([[start ps] t2] & w2 & Hc & H) | (e & Hc & Hr)]; [|discriminate].
  apply plan_inv in Hc as (evs2 & Hs2 & Ho2 & _ & _ & _ & Hb2 & Hk2 & Hplan).
  fold bucket key in Hs2, Ho2, Hb2, Hk2, Hplan.
  unfold os_stat_size, open_rb in H.
  destruct (fs !! _src self) as [data|] eqn:Hfs.
  2:{ apply bind_inv in H as [(? & ? & Hr & _) | (? & _ & Hr)]; discriminate. }
  rewrite bind_ok with (a := len data) (s1 := w2) in H by done.
  rewrite bind_ok with (a := data) (s1 := w2) in H by done.
  unfold seek in H. destruct start as [s|].
  2:{ apply bind_inv in H as [(? & ? & Hr & _) | (? & _ & Hr)]; discriminate. }
  destruct ((s <? OFF_T_MIN) || (OFF_T_MAX <? s)).
  { apply bind_inv in H as [(? & ? & Hr & _) | (? & _ & Hr)]; discriminate. }
  destruct (Z.ltb_spec s 0) as [Hneg | Hpos].
  { apply bind_inv in H as [(? & ? & Hr & _) | (? & _ & Hr)]; discriminate. }
  rewrite bind_ok with (a := drop (Z.to_nat s) data) (s1 := w2) in H by done.
  apply bind_inv in H as [(ps' & w3 & Hc & H) | (e & Hc & Hr)]; [|discriminate].
  apply stream_loop_inv in Hc as (evs3 & Hs3 & Hloop). simpl in Hloop.
  rewrite Hb2, Hk2 in Hloop.
  destruct Hloop as (-> & -> & u & g & Hu & Hg & Hsm & Ho3).
  apply bind_inv in H as [([sz t4] & w4 & Hc & H) | (e & Hc & Hr)]; [|discriminate].
  injection H as <- <-. apply size_refresh_inv in Hc as (head2 & ->).
  rewrite Hb2, Hk2.
  assert (Hs4 : step w3 (log (HeadObject bucket key) head2 w3)
                  [(HeadObject bucket key, head2)]) by step_tac.
  pose proof (step_trans _ _ _ _ _ Hs1 (step_trans _ _ _ _ _ Hs2
                (step_trans _ _ _ _ _ Hs3 Hs4))) as Hall.
  pose proof (step_events _ _ _ Hall) as Hev.
  destruct Hs2 as (_ & Hf2 & He2). destruct Hs3 as (_ & Hf3 & He3).
  exists data, s.
  destruct Hplan as [(o & Hst & -> & -> & Hup) |
                     (obj & u0 & Hobj & Hbig & Hu0 & -> & Hup & Hcases)].
  - (* from byte 0, with no part *)
    injection Hst as ->. exists o, head2.
    do 5 (split; [done|]). split; [simpl; by rewrite Hf3, Hf2|].
    split; [simpl; by rewrite He3, He2|].
    left. simpl. change (len [] + 1) with 1 in *. rewrite He2 in *.
    change (etag w1) with (etag w) in *.
    assert (Hu' : find_upload bucket key id w2 = find_upload bucket key id w1).
    { unfold find_upload. by rewrite Hup. }
    rewrite Hu', Hnew in Hu. injection Hu as <-. simpl in Hg.
    rewrite gather_records in Hg.
    2: lia.
    2:{ intros i d Hi. by apply part_data_stored_at. }
    injection Hg as <-.
    split; [done|]. split; [done|].
    split; [rewrite Hev; simpl; by rewrite <- !app_assoc|].
    rewrite Ho3, Ho2. done.
  - (* from the size of the object, with its copy as part 1 *)
    exists Served, head2.
    do 2 (split; [done|]).
    split; [done|]. split; [done|]. split; [done|].
    split; [simpl; by rewrite Hf3, Hf2|]. split; [simpl; by rewrite He3, He2|].
    right. exists obj. simpl. change (len [_] + 1) with 2 in *. rewrite He2 in *.
    change (etag w1) with (etag w) in *. change (objects w1) with (objects w) in *.
    rewrite Hnew in Hu0. injection Hu0 as <-.
    assert (Hu' : find_upload bucket key id w2 =
                  Some (store_part 1 (body obj)
                          {| up_bucket := bucket; up_key := key;
                             up_parts := []; up_open := true |})).
    { apply find_upload_intro; try done. rewrite Hup.
      apply list_lookup_insert_eq. subst w1. simpl. rewrite length_app. simpl. lia. }
    rewrite Hu' in Hu. injection Hu as <-. simpl in Hg.
    rewrite part_data_stored_below in Hg by lia. simpl in Hg.
    rewrite String.eqb_refl, gather_records in Hg.
    2: lia.
    2:{ intros i d Hi. by apply part_data_stored_at. }
    injection Hg as <-.
    split; [done|]. split; [done|]. split; [done|].
    split; [rewrite Ho3, Ho2; done|].
    destruct Hcases as [(Hgz & Hst & ->) | (Hgz & v & n & Hv & Hn & Hst & ->)];
      injection Hst as ->.
    + left. split; [done|]. split; [done|].
      rewrite Hev. simpl. by rewrite <- !app_assoc.
    + right. split; [done|]. exists v. split; [done|]. split; [done|].
      rewrite Hev. simpl. by rewrite <- !app_assoc.
Qed.

End Run.

(* ===================================================================== *)
(** ** A run that raises                                                  *)
(* ===================================================================== *)

(** Every request to write tags in a log stands after a served request to
    complete an upload; [seen] tells whether one has been met already. *)
Fixpoint tagging_guarded (seen : bool) (evs : list (S3.request * S3.outcome)) : bool :=
  match evs with
  | [] => true
  | (S3.PutObjectTagging _ _ _, _) :: rest => seen && tagging_guarded seen rest
  | (S3.CompleteMultipartUpload _ _ _ _, S3.Served) :: rest => tagging_guarded true rest
  | _ :: rest => tagging_guarded seen rest
  end.

Lemma tagging_guarded_quiet evs : forall seen,
  omap tagging_request evs = [] -> tagging_guarded seen evs = true.
Proof.
  induction evs as [|[r o] evs IH]; intros seen H; [done|].
  destruct r; simpl in *; try discriminate; try (by apply IH).
  destruct o; by apply IH.
Qed.

Lemma tagging_guarded_complete pre : forall seen bucket key id ps rest,
  omap tagging_request pre = [] ->
  tagging_guarded seen
    (pre ++ (S3.CompleteMultipartUpload bucket key id ps, S3.Served) :: rest)
  = tagging_guarded true rest.
Proof.
  induction pre as [|[r o] pre IH]; intros seen bucket key id ps rest H; [done|].
  destruct r; simpl in *; try discriminate; try (by apply IH).
  destruct o; by apply IH.
Qed.

Lemma tagging_guarded_app pre rest seen :
  omap tagging_request pre = [] ->
  (forall s, tagging_guarded s rest = true) ->
  tagging_guarded seen (pre ++ rest) = true.
Proof.
  revert seen. induction pre as [|[r o] pre IH]; intros seen H Hrest; [apply Hrest|].
  destruct r; simpl in *; try discriminate; try (by apply IH).
  destruct o; by apply IH.
Qed.

Section Raise.

Import S3 S3Facts S3Object S3ObjectFacts S3DiffUploader.

Context (gz : GzipFile).

Lemma omap_served_complete_app (a b : list (request * outcome)) :
  omap served_complete (a ++ b) = omap served_complete a ++ omap served_complete b.
Proof. apply omap_app. Qed.

(** A run that raises has either left every object as it was, completed no
    upload and asked for no tag to be written, or it had completed the upload
    already. *)
Lemma upload_raise_inv self fs w e w' :
  upload gz self fs w = (Raise e, w') ->
  let evs := events_since w w' in
  (objects w' = objects w /\ omap served_complete evs = [] /\
   omap tagging_request evs = []) \/
  (omap served_complete evs <> [] /\ tagging_guarded false evs = true).
Proof.
  intros H. unfold upload in H.
  set (t := _s3_target self) in *.
  apply bind_inv in H as [(id & w1 & Hc & H) | (e1 & Hc & _)];
    apply start_multipart_upload_inv in Hc as [(Hid & ->) | (e' & code & Hr & ->)];
    try discriminate.
  2:{ left. unfold events_since. simpl. rewrite drop_app_length. done. }
  injection Hid as ->.
  set (w1 := log _ Served _) in H.
  assert (Hs1 : step w w1 [(CreateMultipartUpload (_bucket t) (_key t), Served)])
    by step_tac.
  apply bind_inv in H as [([[start ps] t2] & w2 & Hc & H) | (e1 & Hc & _)];
    apply plan_inv in Hc as (evs2 & Hs2 & Ho2 & Hnc2 & Hnt2 & _ & Hplan).
  2:{ left. simpl. rewrite (step_events _ _ _ (step_trans _ _ _ _ _ Hs1 Hs2)).
      simpl. done. }
  destruct Hplan as (Hb2 & Hk2 & _).
  assert (Hquiet : forall w3, w3 = w2 ->
    objects w3 = objects w /\
    omap served_complete (events_since w w3) = [] /\
    omap tagging_request (events_since w w3) = []).
  { intros w3 ->. rewrite (step_events _ _ _ (step_trans _ _ _ _ _ Hs1 Hs2)).
    simpl. done. }
  unfold os_stat_size, open_rb in H.
  destruct (fs !! _src self) as [data|] eqn:Hfs.
  2:{ apply bind_inv in H as [(? & ? & Hr & _) | (? & Hr & _)]; [discriminate|].
      injection Hr as <- <-. left. by apply Hquiet. }
  rewrite bind_ok with (a := len data) (s1 := w2) in H by done.
  rewrite bind_ok with (a := data) (s1 := w2) in H by done.
  apply bind_inv in H as [(input & w2' & Hc & H) | (e1 & Hc & _)].
  2:{ left. apply Hquiet. unfold seek in Hc.
      destruct start as [s|]; [destruct (_ || _); [|destruct (s <? 0)]|];
        by injection Hc. }
  assert (w2' = w2) as ->.
  { unfold seek in Hc.
    destruct start as [s|]; [destruct (_ || _); [|destruct (s <? 0)]|];
      by injection Hc. }
  clear Hc.
  apply bind_inv in H as [(ps' & w3 & Hc & H) | (e1 & Hc & _)];
    apply stream_loop_inv in Hc as (evs3 & Hs3 & Hloop).
  - (* the loop returned: the upload is completed *)
    right. destruct Hloop as (_ & -> & _).
    apply bind_inv in H as [([sz t4] & w4 & Hc & H) | (e1 & Hc & _)]; [discriminate|].
    apply size_refresh_inv in Hc as (o & ->).
    assert (Hs4 : step w3 (log (HeadObject (_bucket t2) (_key t2)) o w3)
                    [(HeadObject (_bucket t2) (_key t2), o)]) by step_tac.
    simpl. rewrite (step_events _ _ _ (step_trans _ _ _ _ _ Hs1
                      (step_trans _ _ _ _ _ Hs2 (step_trans _ _ _ _ _ Hs3 Hs4)))).
    split.
    + rewrite !omap_served_complete_app. rewrite upload_events_complete. simpl.
      destruct (omap served_complete evs2); done.
    + change (?a :: evs2 ++ ?r) with ([a] ++ evs2 ++ r).
      apply tagging_guarded_app; [done|]. intros s1.
      apply tagging_guarded_app; [done|]. intros s2.
      rewrite <- app_assoc.
      apply tagging_guarded_app; [apply upload_events_tagging|]. done.
  - (* the loop raised *)
    simpl. rewrite (step_events _ _ _ (step_trans _ _ _ _ _ Hs1
                      (step_trans _ _ _ _ _ Hs2 Hs3))).
    destruct Hloop as [(Ho3 & Hnc3 & Hnt3) | (pre & ps' & o & -> & Hnt3)].
    + left. split; [by rewrite Ho3, Ho2|].
      simpl. rewrite !omap_app, Hnc2, Hnc3, Hnt2, Hnt3. done.
    + right. split.
      * rewrite !omap_served_complete_app. simpl.
        destruct (omap served_complete evs2), (omap served_complete pre); done.
      * change (?a :: evs2 ++ ?r) with ([a] ++ evs2 ++ r).
        apply tagging_guarded_app; [done|]. intros s1.
        apply tagging_guarded_app; [done|]. intros s2.
        apply tagging_guarded_app; [done|]. done.
Qed.

(** In the log of any run, returned or not, a request to write the tag comes
    only after the upload was completed. *)
Lemma upload_tagging_guarded self fs w res w' :
  upload gz self fs w = (res, w') ->
  tagging_guarded false (events_since w w') = true.
Proof.
  intros H. destruct res as [rep | e].
  - apply upload_ok_inv in H
      as (data & s & h1 & h2 & _ & _ & _ & _ & _ & _ & _ & Hcases).
    cbv zeta in Hcases.
    destruct Hcases as [(_ & _ & -> & _) |
                        (obj & _ & _ & _ & _ & [(_ & _ & ->) | (_ & v & _ & _ & ->)])].
    + apply tagging_guarded_app; [done|]. intros s1.
      apply tagging_guarded_app; [apply upload_events_tagging|]. done.
    + apply tagging_guarded_app; [done|]. intros s1.
      apply tagging_guarded_app; [apply upload_events_tagging|]. done.
    + apply tagging_guarded_app; [done|]. intros s1.
      apply tagging_guarded_app; [apply upload_events_tagging|]. done.
  - apply upload_raise_inv in H as [(_ & _ & H) | (_ & H)]; [|done].
    by apply tagging_guarded_quiet.
Qed.

End Raise.

(* ===================================================================== *)
(** ** Runs against a service that refuses nothing                        *)
(* ===================================================================== *)

Section Progress.

Import S3 S3Facts S3Object S3ObjectFacts S3DiffUploader GatherFacts.

Context (gz : GzipFile).

Lemma trigger_is_min : MULTIPART_TRIGGER_SIZE = MIN_PART_SIZE.
Proof. reflexivity. Qed.

(** The loop returns when the parts it starts with can be gathered from the
    upload and are large enough, whatever is uploaded after them. *)
Lemma stream_loop_runs t id total chunks : forall c s ps w u g0,
  no_faults w ->
  find_upload (_bucket t) (_key t) id w = Some u ->
  Forall (fun d => MIN_PART_SIZE <= len d) g0 ->
  (forall ds,
     gather (etag w) (stored_after (len ps + 1) ds (up_parts u)) 0
       (ps ++ part_records (etag w) (len ps + 1) ds) = inl (g0 ++ ds)) ->
  exists ps' w', stream_loop gz t id total chunks c s ps w = (Ok ps', w').
Proof.
  induction chunks as [|chunk rest IH]; intros c s ps w u g0 Hf Hu Hg0 Hg.
  - simpl. unfold finish.
    erewrite bind_ok; [|by apply upload_part_ok]. cbv beta iota.
    set (d := s ++ gz_close gz c). set (n := len ps + 1).
    set (w1 := log _ Served _).
    assert (Hf1 : no_faults w1) by done.
    assert (Hu1 : find_upload (_bucket t) (_key t) id w1 = Some (store_part n d u)).
    { subst w1. rewrite find_upload_log. by apply find_upload_store. }
    erewrite bind_ok.
    2:{ apply complete_ok with (u := store_part n d u) (ds := g0 ++ [d]); try done.
        - by destruct ps.
        - apply (Hg [d]).
        - by apply too_small_last. }
    erewrite bind_ok.
    2:{ apply set_uncompressed_size_ok; [done|]. simpl. apply lookup_insert_eq. }
    eauto.
  - simpl. unfold write_chunk.
    destruct (gz_write gz c chunk) as [c' out].
    destruct (Z.ltb_spec MULTIPART_TRIGGER_SIZE (len (s ++ out))) as [Hbig | Hsmall].
    + erewrite bind_ok.
      2:{ erewrite bind_ok; [|by apply upload_part_ok]. done. }
      cbv beta iota.
      set (d := s ++ out) in *. set (n := len ps + 1).
      eapply IH with (u := store_part n d u) (g0 := g0 ++ [d]).
      * done.
      * rewrite find_upload_log. by apply find_upload_store.
      * apply Forall_app. split; [done|]. constructor; [|done].
        rewrite <- trigger_is_min. lia.
      * intros ds. simpl etag. rewrite len_app. change (len [_]) with 1.
        rewrite <- !app_assoc. apply (Hg (d :: ds)).
    + erewrite bind_ok; [|done]. cbv beta iota. by eapply IH.
Qed.

Lemma size_refresh_runs t w :
  no_faults w -> exists r w', size t true w = (Ok r, w').
Proof.
  intros Hf. unfold size. rewrite orb_true_r.
  destruct (objects w !! (_bucket t, _key t)) as [obj|] eqn:Ho.
  - erewrite bind_ok; [|erewrite bind_ok; [|by eapply exists_found]; done]. eauto.
  - erewrite bind_ok; [|erewrite bind_ok; [|by eapply exists_absent]; done]. eauto.
Qed.

(** The plan returns unless reading the size raises. *)
Lemma plan_runs_fresh t id w :
  no_faults w ->
  (forall obj, objects w !! (_bucket t, _key t) = Some obj ->
               len (body obj) <= MULTIPART_TRIGGER_SIZE) ->
  exists t' w', plan t id w = (Ok (Some 0, [], t'), w').
Proof.
  intros Hf Hsmall. unfold plan.
  destruct (objects w !! (_bucket t, _key t)) as [obj|] eqn:Ho.
  - erewrite bind_ok; [|by eapply exists_found]. cbv beta iota.
    erewrite bind_ok.
    2:{ erewrite bind_ok; [|by apply size_cached]. done. }
    cbv beta iota.
    specialize (Hsmall obj eq_refl).
    destruct (Z.ltb_spec MULTIPART_TRIGGER_SIZE (len (body obj))); [lia|]. eauto.
  - erewrite bind_ok; [|by eapply exists_absent]. cbv beta iota.
    erewrite bind_ok; [|done]. eauto.
Qed.

Lemma plan_runs_resume t id w obj u start :
  no_faults w ->
  objects w !! (_bucket t, _key t) = Some obj ->
  MULTIPART_TRIGGER_SIZE < len (body obj) ->
  find_upload (_bucket t) (_key t) id w = Some u ->
  (if Py.endswith (_key t) ".gz"
   then exists v, tag_value (tagset obj) = Some v /\ Py.int v = Some start
   else start = len (body obj)) ->
  exists t' w',
    plan t id w =
      (Ok (Some start, [{| PartNumber := 1; ETag := etag w (body obj) |}], t'), w').
Proof.
  intros Hf Ho Hbig Hu Hstart. unfold plan.
  erewrite bind_ok; [|by eapply exists_found]. cbv beta iota.
  erewrite bind_ok.
  2:{ erewrite bind_ok; [|by apply size_cached]. done. }
  cbv beta iota.
  destruct (Z.ltb_spec MULTIPART_TRIGGER_SIZE (len (body obj))); [|lia].
  set (w1 := log _ Served w).
  unfold get_uncompressed_size. cbn [_key _bucket _size set_size].
  destruct (Py.endswith (_key t) ".gz").
  - destruct Hstart as (v & Hv & Hn).
    erewrite bind_ok.
    2:{ erewrite bind_ok; [|by eapply get_bytes_from_tag_ok]. done. }
    cbv beta iota.
    erewrite bind_ok; [|by eapply copy_existing_object_ok]. eauto.
  - subst start. erewrite bind_ok; [|done]. cbv beta iota.
    erewrite bind_ok; [|by eapply copy_existing_object_ok]. eauto.
Qed.

End Progress.

Section ForwardRuns.

Import S3 S3Facts S3Object S3ObjectFacts S3DiffUploader GatherFacts.

Context (gz : GzipFile).

(** A run against an absent or small object, nothing refused: it returns, it
    started from byte 0, and the object is one gzip member of the whole file,
    tagged with the size of the file. *)
Lemma upload_runs_fresh self fs w data :
  no_faults w ->
  fs !! _src self = Some data ->
  let t := _s3_target self in
  (forall obj, objects w !! (_bucket t, _key t) = Some obj ->
               len (body obj) <= MULTIPART_TRIGGER_SIZE) ->
  exists rep w',
    upload gz self fs w = (Ok rep, w') /\
    no_faults w' /\
    starting_byte rep = Some 0 /\
    uncompressed_file_size rep = len data /\
    parts rep = part_records (etag w) 1
                  (payloads gz (read_chunks data) (gz_open gz) (gz_header gz)) /\
    objects w' =
      <[(_bucket t, _key t) :=
          {| body := gz_member gz (read_chunks data);
             tagset := [(S3_TAG_UNCOMPRESSED_SIZE, Py.str (len data))] |}]> (objects w).
Proof.
  intros Hf Hfs t Hsmall. unfold upload. fold t.
  unfold start_multipart_upload, create_multipart_upload.
  erewrite bind_ok; [|by apply call_ok]. cbv beta iota.
  set (id := length (uploads w)). set (w1 := log _ Served _).
  assert (Hf1 : no_faults w1) by done.
  destruct (plan_runs_fresh t id w1 Hf1 Hsmall) as (t2 & w2 & Hplan).
  erewrite bind_ok; [|exact Hplan]. cbv beta iota.
  apply plan_inv in Hplan as (evs2 & Hs2 & Ho2 & _ & _ & _ & Hb2 & Hk2 & Hcases).
  destruct Hcases as [(o & _ & _ & _ & Hup) | (obj & u & _ & _ & _ & Hps & _)];
    [|discriminate].
  pose proof (step_no_faults _ _ _ Hs2 Hf1) as Hf2.
  destruct Hs2 as (_ & _ & He2).
  unfold os_stat_size, open_rb. rewrite Hfs.
  erewrite bind_ok; [|done]. cbv beta iota.
  erewrite bind_ok; [|done]. cbv beta iota.
  erewrite bind_ok; [|done]. cbv beta iota.
  change (drop (Z.to_nat 0) data) with data.
  assert (Hu2 : find_upload (_bucket t2) (_key t2) id w2 =
                Some {| up_bucket := _bucket t; up_key := _key t;
                        up_parts := []; up_open := true |}).
  { rewrite Hb2, Hk2. unfold find_upload. rewrite Hup.
    apply (find_upload_created (_bucket t) (_key t) w). }
  destruct (stream_loop_runs gz t2 id (len data) (read_chunks data)
              (gz_open gz) (gz_header gz) [] w2 _ [] Hf2 Hu2) as (ps' & w3 & Hloop).
  { constructor. }
  { intros ds. change (len (@nil Part) + 1) with 1. simpl.
    apply gather_records; [lia|].
    intros i d Hi. by apply part_data_stored_at. }
  erewrite bind_ok; [|exact Hloop]. cbv beta iota.
  apply stream_loop_inv in Hloop as (evs3 & Hs3 & -> & _ & u & g & Hu & Hg & _ & Ho3).
  pose proof (step_no_faults _ _ _ Hs3 Hf2) as Hf3.
  destruct (size_refresh_runs t2 w3 Hf3) as ([sz t4] & w4 & Hsize).
  erewrite bind_ok; [|exact Hsize]. cbv beta iota.
  apply size_refresh_inv in Hsize as (o4 & ->).
  eexists _, _. split; [done|]. simpl.
  split; [done|]. split; [done|]. split; [done|].
  rewrite He2. split; [done|].
  rewrite Hu2 in Hu. injection Hu as <-. simpl in Hg.
  rewrite He2 in Hg. change (etag w1) with (etag w) in Hg.
  change (len (@nil Part) + 1) with 1 in Hg.
  rewrite gather_records in Hg.
  2: lia.
  2:{ intros i d Hi. by apply part_data_stored_at. }
  injection Hg as <-.
  rewrite Ho3, Ho2, Hb2, Hk2, gz_member_payloads. done.
Qed.

(** A run against an object larger than the trigger size, nothing refused,
    [start] being what the size of the object reads as: it returns, it started
    from [start], and the object is the old object followed by one gzip member
    of the file from [start] on. *)
Lemma upload_runs_resume self fs w data obj start :
  no_faults w ->
  fs !! _src self = Some data ->
  let t := _s3_target self in
  objects w !! (_bucket t, _key t) = Some obj ->
  MULTIPART_TRIGGER_SIZE < len (body obj) ->
  (if Py.endswith (_key t) ".gz"
   then exists v, tag_value (tagset obj) = Some v /\ Py.int v = Some start
   else start = len (body obj)) ->
  0 <= start <= OFF_T_MAX ->
  exists rep w',
    upload gz self fs w = (Ok rep, w') /\
    no_faults w' /\
    starting_byte rep = Some start /\
    uncompressed_file_size rep = len data /\
    parts rep = {| PartNumber := 1; ETag := etag w (body obj) |}
                  :: part_records (etag w) 2
                       (payloads gz (read_chunks (drop (Z.to_nat start) data))
                          (gz_open gz) (gz_header gz)) /\
    objects w' =
      <[(_bucket t, _key t) :=
          {| body := body obj ++ gz_member gz (read_chunks (drop (Z.to_nat start) data));
             tagset := [(S3_TAG_UNCOMPRESSED_SIZE, Py.str (len data))] |}]> (objects w).
Proof.
  intros Hf Hfs t Hobj Hbig Hstart Hpos. unfold upload. fold t.
  unfold start_multipart_upload, create_multipart_upload.
  erewrite bind_ok; [|by apply call_ok]. cbv beta iota.
  set (id := length (uploads w)). set (w1 := log _ Served _).
  assert (Hf1 : no_faults w1) by done.
  pose proof (find_upload_created (_bucket t) (_key t) w) as Hu1.
  fold id w1 in Hu1.
  destruct (plan_runs_resume t id w1 obj _ start Hf1 Hobj Hbig Hu1 Hstart)
    as (t2 & w2 & Hplan).
  erewrite bind_ok; [|exact Hplan]. cbv beta iota.
  apply plan_inv in Hplan as (evs2 & Hs2 & Ho2 & _ & _ & _ & Hb2 & Hk2 & Hcases).
  destruct Hcases as [(o & _ & Hps & _) | (obj' & u & Hobj' & _ & Hu & _ & Hup & _)];
    [discriminate|].
  change (objects w1) with (objects w) in *.
  rewrite Hobj in Hobj'. injection Hobj' as <-.
  rewrite Hu1 in Hu. injection Hu as <-.
  pose proof (step_no_faults _ _ _ Hs2 Hf1) as Hf2.
  destruct Hs2 as (_ & _ & He2).
  unfold os_stat_size, open_rb. rewrite Hfs.
  erewrite bind_ok; [|done]. cbv beta iota.
  erewrite bind_ok; [|done]. cbv beta iota.
  erewrite bind_ok; [|by apply seek_ok]. cbv beta iota.
  set (input := drop (Z.to_nat start) data).
  set (u0 := {| up_bucket := _bucket t; up_key := _key t;
                up_parts := []; up_open := true |}) in *.
  assert (Hu2 : find_upload (_bucket t2) (_key t2) id w2 =
                Some (store_part 1 (body obj) u0)).
  { rewrite Hb2, Hk2. apply find_upload_intro; try done. rewrite Hup.
    apply list_lookup_insert_eq. subst w1 id. simpl. rewrite length_app. simpl. lia. }
  assert (Hgather : forall ds,
    gather (etag w2) (stored_after 2 ds [(1, body obj)]) 0
      ({| PartNumber := 1; ETag := etag w (body obj) |} :: part_records (etag w2) 2 ds)
    = inl (body obj :: ds)).
  { intros ds. simpl. rewrite part_data_stored_below by lia. simpl.
    rewrite He2. change (etag w1) with (etag w).
    rewrite String.eqb_refl, gather_records; [done | lia |].
    intros i d Hi. by apply part_data_stored_at. }
  destruct (stream_loop_runs gz t2 id (len data) (read_chunks input)
              (gz_open gz) (gz_header gz)
              [{| PartNumber := 1; ETag := etag w (body obj) |}] w2 _ [body obj] Hf2 Hu2)
    as (ps' & w3 & Hloop).
  { constructor; [|done]. rewrite <- trigger_is_min. lia. }
  { intros ds. apply Hgather. }
  erewrite bind_ok; [|exact Hloop]. cbv beta iota.
  apply stream_loop_inv in Hloop as (evs3 & Hs3 & -> & _ & u & g & Hu & Hg & _ & Ho3).
  pose proof (step_no_faults _ _ _ Hs3 Hf2) as Hf3.
  destruct (size_refresh_runs t2 w3 Hf3) as ([sz t4] & w4 & Hsize).
  erewrite bind_ok; [|exact Hsize]. cbv beta iota.
  apply size_refresh_inv in Hsize as (o4 & ->).
  eexists _, _. split; [done|]. simpl.
  split; [done|]. split; [done|]. split; [done|].
  rewrite He2. split; [done|].
  rewrite Hu2 in Hu. injection Hu as <-.
  change (len [_] + 1) with 2 in Hg. simpl app in Hg.
  change (up_parts (store_part 1 (body obj) u0)) with [(1, body obj)] in Hg.
  rewrite Hgather in Hg. injection Hg as <-.
  rewrite Ho3, Ho2, Hb2, Hk2. simpl concat. rewrite gz_member_payloads. done.
Qed.

End ForwardRuns.

(* ===================================================================== *)
(** ** Example inputs                                                     *)
(* ===================================================================== *)

(** A store with one more upload open for [bucket]/[key]. *)
Definition with_upload (bucket key : string) (w : S3.state) : S3.state :=
  S3.set_uploads (fun us => us ++ [{| S3.up_bucket := bucket; S3.up_key := key;
                                      S3.up_parts := []; S3.up_open := true |}]) w.

Definition sample_url : ParseResult := {| netloc := "bkt"; path := "/logs/app.log.gz" |}.
Definition sample_handle : S3Object.t := S3Object.__init__ sample_url.
Definition sample_uploader : S3DiffUploader.t :=
  S3DiffUploader.__init__ "app.log" sample_url true.
Definition sample_files : files := {[ "app.log"%string := [x68; x65; x6c; x6c; x6f] ]}.

(** An object of 5,242,881 bytes whose tag says it stands for 7 bytes. *)
Definition large_object : S3.Object :=
  {| S3.body := zeros 5242881;
     S3.tagset := [(S3_TAG_UNCOMPRESSED_SIZE, "7"%string)] |}.

(* ===================================================================== *)
(** ** C1: the plan                                                       *)
(* ===================================================================== *)

Section PlanClaim.

Import S3 S3Facts S3Object S3ObjectFacts S3DiffUploader.

Lemma get_uncompressed_size_frame t w res w' :
  get_uncompressed_size t w = (res, w') ->
  objects w' = objects w /\ uploads w' = uploads w /\
  faults w' = faults w /\ etag w' = etag w.
Proof.
  unfold get_uncompressed_size. destruct (Py.endswith (_key t) ".gz").
  - intros H.
    apply bind_inv in H as [(n & w1 & Hc & H) | (e & Hc & ->)].
    + injection H as <- <-. apply get_bytes_from_tag_inv in Hc as (o & -> & _). done.
    + apply get_bytes_from_tag_inv in Hc as (o & -> & _). done.
  - intros [= <- <-]. done.
Qed.



End PlanClaim.

(* ===================================================================== *)
(** ** C5: the flush after a chunk                                        *)
(* ===================================================================== *)

Section FlushClaim.

Import S3 S3Facts S3Object S3ObjectFacts S3DiffUploader.


End FlushClaim.

(* ===================================================================== *)
(** ** C8: get_uncompressed_size                                          *)
(* ===================================================================== *)

Section LogicalSizeClaim.

Import S3 S3Facts S3Object S3ObjectFacts.




End LogicalSizeClaim.

(* ===================================================================== *)
(** ** C3: the part numbers of a completed run                            *)
(* ===================================================================== *)

(** Runs [c] and hands the equation [c = (result, state)] to [k]. *)
Ltac with_run c k :=
  let r := eval vm_compute in c in
  lazymatch r with
  | (?res, ?w1) =>
      let H := fresh "Hrun" in
      assert (H : c = (res, w1)) by (vm_compute; reflexivity);
      k H
  end.

Section PartsOfARun.

Import S3 S3Facts S3Object S3ObjectFacts S3DiffUploader.

Context (gz : GzipFile).

(** C3.  In a run that returns, the one request to complete the upload that
    was served carried the part list of the run; the part numbers in that
    list are 1, 2, ..., k in this order; and they are, in order, the part
    numbers of the copy and upload requests the run was served. *)
Theorem part_numbers_contiguous self fs w rep w' :
  upload gz self fs w = (Ok rep, w') ->
  let evs := events_since w w' in
  omap served_complete evs = [parts rep] /\
  map PartNumber (parts rep) = seqZ 1 (len (parts rep)) /\
  omap served_part evs = map PartNumber (parts rep).
Proof.
  intros H evs. subst evs.
  apply upload_ok_inv in H
    as (data & s & h1 & h2 & _ & _ & _ & _ & _ & _ & _ & Hcases).
  cbv zeta in Hcases.
  set (ds := payloads gz _ _ _) in Hcases.
  assert (Hlen : forall n, len (part_records (etag w) n ds) = len ds).
  { intros n. unfold len. by rewrite part_records_length. }
  destruct Hcases as [(_ & Hps & -> & _) |
    (obj & _ & _ & Hps & _ & [(_ & _ & ->) | (_ & v & _ & _ & ->)])];
    rewrite Hps, !omap_app, upload_events_complete, upload_events_parts;
    simpl; rewrite ?part_records_numbers, ?app_nil_r.
  - rewrite Hlen. done.
  - split; [done|]. unfold len at 2. simpl length. rewrite Nat2Z.inj_succ.
    fold (len (part_records (etag w) 2 ds)). rewrite Hlen.
    rewrite (seqZ_cons 1) by (pose proof (len_nonneg ds); lia).
    replace (Z.pred (Z.succ (len ds))) with (len ds) by lia. done.
  - split; [done|]. unfold len at 2. simpl length. rewrite Nat2Z.inj_succ.
    fold (len (part_records (etag w) 2 ds)). rewrite Hlen.
    rewrite (seqZ_cons 1) by (pose proof (len_nonneg ds); lia).
    replace (Z.pred (Z.succ (len ds))) with (len ds) by lia. done.
Qed.

End PartsOfARun.

(** The theorem at a first run over a five-byte file. *)
Lemma part_numbers_contiguous_witness :
  omap served_part
    (events_since empty_store
       (S3DiffUploader.upload Stored.writer sample_uploader sample_files empty_store).2)
  = [1].
Proof.
  with_run (S3DiffUploader.upload Stored.writer sample_uploader sample_files empty_store)
    ltac:(fun H =>
      destruct (part_numbers_contiguous _ _ _ _ _ _ H) as (_ & _ & Hp);
      rewrite H; cbn [snd]; rewrite Hp; reflexivity).
Defined.

(* ===================================================================== *)
(** ** C4: the last part                                                  *)
(* ===================================================================== *)

Section LastPart.

Import S3 S3Facts S3Object S3ObjectFacts S3DiffUploader.

Context (gz : GzipFile).

Lemma upload_events_no_copy bucket key id ds r o : forall n,
  In (r, o) (upload_events bucket key id n ds) ->
  exists m d, r = UploadPart bucket key m id d.
Proof.
  induction ds as [|d ds IH]; intros n; simpl; [done|].
  intros [[= <- <-] | H]; [eauto | by eapply IH].
Qed.

(** The buffers of the loop end with the buffer at the end of the file, which
    ends with what the writer gives when it is closed. *)
Lemma payloads_last chunks : forall c s,
  exists front leftover,
    payloads gz chunks c s =
      front ++ [leftover ++ gz_close gz (gz_feed gz c chunks).1].
Proof.
  induction chunks as [|chunk rest IH]; intros c s; simpl.
  - exists [], s. done.
  - destruct (gz_write gz c chunk) as [c' out].
    destruct (MULTIPART_TRIGGER_SIZE <? len (s ++ out)).
    + destruct (IH c' []) as (front & leftover & ->).
      destruct (gz_feed gz c' rest). exists ((s ++ out) :: front), leftover. done.
    + destruct (IH c' (s ++ out)) as (front & leftover & ->).
      destruct (gz_feed gz c' rest). exists front, leftover. done.
Qed.

Lemma part_records_app tag_of ds1 : forall n ds2,
  part_records tag_of n (ds1 ++ ds2) =
    part_records tag_of n ds1 ++ part_records tag_of (n + len ds1) ds2.
Proof.
  induction ds1 as [|d ds1 IH]; intros n ds2; simpl.
  - f_equal. unfold len. simpl. lia.
  - rewrite IH. do 3 f_equal. unfold len. simpl length. lia.
Qed.

Lemma upload_events_app bucket key id ds1 : forall n ds2,
  upload_events bucket key id n (ds1 ++ ds2) =
    upload_events bucket key id n ds1 ++
    upload_events bucket key id (n + len ds1) ds2.
Proof.
  induction ds1 as [|d ds1 IH]; intros n ds2; simpl.
  - f_equal. unfold len. simpl. lia.
  - rewrite IH. do 3 f_equal. unfold len. simpl length. lia.
Qed.

(** At the end of the file the first request is the upload of the buffer with
    what closing the writer added, as part [len ps + 1], whatever the size of
    the buffer. *)
Lemma finish_uploads_first id total t c s ps w :
  exists o rest,
    events_since w (finish gz t id total c s ps w).2 =
      (UploadPart (_bucket t) (_key t) (len ps + 1) id (s ++ gz_close gz c), o) :: rest.
Proof.
  destruct (finish gz t id total c s ps w) as [res w'] eqn:H.
  apply finish_inv in H. simpl.
  destruct H as [(e & o & _ & _ & [Hs | Hs]) | [(e & o & _ & Hs) | (u & ds & _ & _ & _ & _ & Hs & _)]];
    rewrite (step_events _ _ _ Hs); eauto.
Qed.


End LastPart.


(* ===================================================================== *)
(** ** C6: the commit                                                     *)
(* ===================================================================== *)

Section Commit.

Import S3 S3Facts S3Object S3ObjectFacts S3DiffUploader.

Context (gz : GzipFile).



End Commit.


(* ===================================================================== *)
(** ** C10: the compress flag                                             *)
(* ===================================================================== *)

Section CompressFlag.

Import S3 S3Facts S3Object S3ObjectFacts S3DiffUploader.

Context (gz : GzipFile).

(** C10.  Two uploaders built from the same source and destination, one with
    [compress=True] and one with [compress=False], run alike: same result,
    same requests, same store.  Whatever the flag, the bytes a run that
    returns has uploaded are, end to end, one gzip member of the bytes of the
    file from the starting byte on. *)
Theorem compress_flag_ignored src dest fs w :
  upload gz (__init__ src dest true) fs w = upload gz (__init__ src dest false) fs w /\
  forall flag rep w',
    upload gz (__init__ src dest flag) fs w = (Ok rep, w') ->
    exists data s,
      fs !! src = Some data /\ starting_byte rep = Some s /\
      concat (omap served_data (events_since w w')) =
        gz_member gz (read_chunks (drop (Z.to_nat s) data)).
Proof.
  split; [reflexivity|].
  intros flag rep w' H.
  apply upload_ok_inv in H
    as (data & s & h1 & h2 & Hfs & _ & Hs & _ & _ & _ & _ & Hcases).
  cbv zeta in Hcases. exists data, s. split; [done|]. split; [done|].
  rewrite <- gz_member_payloads.
  destruct Hcases as [(_ & _ & -> & _) |
    (obj & _ & _ & _ & _ & [(_ & _ & ->) | (_ & v & _ & _ & ->)])];
    rewrite !omap_app, upload_events_data; simpl; by rewrite app_nil_r.
Qed.

End CompressFlag.

(** The theorem at a first run over a five-byte file, the flag off: the bytes
    uploaded are the gzip member of the file. *)
Lemma compress_flag_ignored_witness :
  concat (omap served_data
    (events_since empty_store
       (S3DiffUploader.upload Stored.writer
          (S3DiffUploader.__init__ "app.log" sample_url false)
          sample_files empty_store).2))
  = [x1f; x8b; x01; x68; x01; x65; x01; x6c; x01; x6c; x01; x6f; x00].
Proof.
  with_run (S3DiffUploader.upload Stored.writer
              (S3DiffUploader.__init__ "app.log" sample_url false)
              sample_files empty_store)
    ltac:(fun H =>
      destruct (compress_flag_ignored Stored.writer "app.log" sample_url
                  sample_files empty_store) as (_ & Hgz);
      destruct (Hgz _ _ _ H) as (data & s & Hfs & Hs & Hcat);
      injection Hfs as <-; injection Hs as <-;
      rewrite H; cbn [snd]; rewrite Hcat; reflexivity).
Defined.

(* ===================================================================== *)
(** ** C7: a run that fails                                               *)
(* ===================================================================== *)

Section FailedRun.

Import S3 S3Facts S3Object S3ObjectFacts S3DiffUploader.

Context (gz : GzipFile).

(** C7.  A run that raises before any request to complete the upload was
    served leaves every object of the store as it was, tags included, and
    has made no request to write a tag.  In the log of any run, raised or
    returned, a request to write the tag comes only after a served request
    to complete the upload. *)
Theorem tag_untouched_on_failure self fs w e w' :
  upload gz self fs w = (Raise e, w') ->
  let evs := events_since w w' in
  omap served_complete evs = [] ->
  objects w' = objects w /\
  omap tagging_request evs = [] /\
  forall fs0 w0 res0 w1,
    upload gz self fs0 w0 = (res0, w1) ->
    tagging_guarded false (events_since w0 w1) = true.
Proof.
  intros H evs Hnone.
  apply upload_raise_inv in H as [(Ho & _ & Ht) | (Hc & _)]; [|done].
  split; [done|]. split; [done|].
  intros fs0 w0 res0 w1 H0. by eapply upload_tagging_guarded.
Qed.

End FailedRun.

(** The theorem at a run over an object tagged with 7 in which the service
    refuses every request from the third on: the tag is still 7. *)
Lemma tag_untouched_on_failure_witness :
  let small := {| S3.body := [x1f; x8b; x00];
                  S3.tagset := [(S3_TAG_UNCOMPRESSED_SIZE, "7"%string)] |} in
  let w := failing_from 2 (store_with "bkt" "logs/app.log.gz" small) in
  let run := S3DiffUploader.upload Stored.writer sample_uploader sample_files w in
  run.1 = Raise (ClientError "InternalError") /\
  S3.objects run.2 !! ("bkt"%string, "logs/app.log.gz"%string) = Some small.
Proof.
  intros small w run. subst run.
  with_run (S3DiffUploader.upload Stored.writer sample_uploader sample_files w)
    ltac:(fun H =>
      destruct (tag_untouched_on_failure _ _ _ _ _ _ H eq_refl) as (Ho & _);
      rewrite H; cbn [fst snd]; split; [reflexivity | rewrite Ho; reflexivity]).
Defined.

(* ===================================================================== *)
(** ** The writer [Stored] is a writer gzip can stand for                 *)
(* ===================================================================== *)

Module StoredFacts.
Import Stored.

Lemma feed st chunks : gz_feed writer st chunks = (st ++ concat chunks, []).
Proof.
  revert st. induction chunks as [|chunk rest IH]; intros st; simpl.
  - by rewrite app_nil_r.
  - rewrite IH. by rewrite <- app_assoc.
Qed.

Lemma member chunks : gz_member writer chunks = [x1f; x8b] ++ stuff (concat chunks).
Proof. unfold gz_member. rewrite feed. done. Qed.

Lemma held_back (c : gz_state writer) chunk : (gz_write writer c chunk).2 = [].
Proof. done. Qed.

Lemma len_stuff data : len (stuff data) = 2 * len data + 1.
Proof.
  unfold len. induction data as [|b data IH]; simpl length; [done|]. lia.
Qed.

Lemma len_member chunks : len (gz_member writer chunks) = 2 * len (concat chunks) + 3.
Proof. rewrite member, len_app, len_stuff. change (len [x1f; x8b]) with 2. lia. Qed.

Lemma read_stuff data rest :
  read true (stuff data ++ rest) = (data ++.) <$> read false rest.
Proof.
  induction data as [|b data IH].
  - simpl. by destruct (read false rest).
  - change (read true (stuff (b :: data) ++ rest))
      with (cons b <$> read true (stuff data ++ rest)).
    rewrite IH. by destruct (read false rest).
Qed.

(** Members written one after the other read back as their inputs. *)
Lemma codec : codec_ok writer gunzip.
Proof.
  intros streams. unfold gunzip.
  induction streams as [|chunks streams IH]; [done|].
  simpl map. rewrite !concat_cons, member, <- app_assoc.
  change (read false ([x1f; x8b] ++ stuff (concat chunks) ++
                      concat (map (gz_member writer) streams)))
    with (read true (stuff (concat chunks) ++ concat (map (gz_member writer) streams))).
  rewrite read_stuff, IH. done.
Qed.

Lemma member_stamped mtime chunks :
  gz_member (stamped mtime) chunks = [x1f; x8b; mtime] ++ stuff (concat chunks).
Proof.
  unfold gz_member.
  assert (H : forall st, gz_feed (stamped mtime) st chunks = (st ++ concat chunks, [])).
  { induction chunks as [|chunk rest IH]; intros st; simpl.
    - by rewrite app_nil_r.
    - rewrite IH. by rewrite <- app_assoc. }
  rewrite H. done.
Qed.

Lemma read_stamped_stuff data rest :
  read_stamped true (stuff data ++ rest) = (data ++.) <$> read_stamped false rest.
Proof.
  induction data as [|b data IH].
  - simpl. by destruct (read_stamped false rest).
  - change (read_stamped true (stuff (b :: data) ++ rest))
      with (cons b <$> read_stamped true (stuff data ++ rest)).
    rewrite IH. by destruct (read_stamped false rest).
Qed.

(** Members written one after the other by writers with any stamps read back
    as their inputs. *)
Lemma codec_stamped :
  reads_back gunzip_stamped (fun gz => exists mtime, gz = stamped mtime).
Proof.
  intros members Hall. unfold gunzip_stamped.
  induction Hall as [|[gz chunks] members [mtime Hm] _ IH]; [done|].
  cbn [fst] in Hm. subst gz.
  cbn [map fst snd]. rewrite !concat_cons, member_stamped, <- app_assoc.
  change (read_stamped false ([x1f; x8b; mtime] ++ ?l)) with (read_stamped true l).
  rewrite read_stamped_stuff, IH. done.
Qed.

End StoredFacts.

(* ===================================================================== *)
(** ** C1: the starting byte for a key without the ".gz" suffix           *)
(* ===================================================================== *)

Section PlanOfOtherKeys.

Import S3 S3Facts S3Object S3ObjectFacts S3DiffUploader.


End PlanOfOtherKeys.

(* ===================================================================== *)
(** ** C9: a file of 5,242,881 bytes, destination absent                  *)
(* ===================================================================== *)

Section TriggerPlusOne.

Import S3 S3Facts S3Object S3ObjectFacts S3DiffUploader.

(** The file of the scenario, all zero bytes. *)
Definition zero_files : files := {[ "app.log"%string := zeros 5242881 ]}.

(** The claim as it is written: whatever the gzip writer, two parts, the
    first of at least 5,242,880 bytes, and the tag 5242881.  It fails for a
    writer whose output stays under the trigger size until it is closed, as
    zlib's does on a run of zero bytes: the buffer is never uploaded before
    the end of the file and the run makes one part. *)
Lemma one_part_when_output_held_back :
  ~ (forall gz gunzip, codec_ok gz gunzip ->
     forall self fs w data,
       no_faults w ->
       objects w !! (_bucket (_s3_target self), _key (_s3_target self)) = None ->
       fs !! _src self = Some data ->
       len data = 5242881 ->
       exists rep w' d1 d2,
         upload gz self fs w = (Ok rep, w') /\
         length (parts rep) = 2%nat /\
         omap served_data (events_since w w') = [d1; d2] /\
         5242880 <= len d1 /\
         exists obj',
           objects w' !! (_bucket (_s3_target self), _key (_s3_target self)) = Some obj' /\
           tag_value (tagset obj') = Some "5242881"%string).
Proof.
  intros Hclaim.
  assert (Hf : no_faults empty_store) by (intros i; reflexivity).
  assert (Hfs : zero_files !! _src sample_uploader = Some (zeros 5242881))
    by apply lookup_singleton_eq.
  destruct (Hclaim Stored.writer Stored.gunzip StoredFacts.codec
              sample_uploader zero_files empty_store (zeros 5242881) Hf)
    as (rep & w' & d1 & d2 & Hrun & Htwo & _); [done | done | by apply len_zeros |].
  destruct (upload_runs_fresh Stored.writer sample_uploader zero_files empty_store
              (zeros 5242881) Hf Hfs) as (rep0 & w0 & Hrun0 & _ & _ & _ & Hps & _).
  { intros obj Hobj. done. }
  rewrite Hrun0 in Hrun. injection Hrun as <- <-.
  rewrite payloads_held_back in Hps.
  - rewrite Hps in Htwo. simpl in Htwo. lia.
  - apply StoredFacts.held_back.
  - rewrite trigger_value. change (len (gz_header Stored.writer)) with 2. lia.
Qed.

Context (gz : GzipFile).

(** C9, amended.  The run returns; it uploads one buffer each time the
    compressed output in the buffer has grown past 5,242,880 bytes and a last
    one at the end of the file, under the numbers 1, 2, ...; together they
    are one gzip member of the file, which is what the object becomes; the
    tag is 5242881.  There are two parts exactly when the buffer was uploaded
    once before the end of the file. *)
Theorem parts_of_trigger_plus_one_file self fs w data :
  no_faults w ->
  objects w !! (_bucket (_s3_target self), _key (_s3_target self)) = None ->
  fs !! _src self = Some data ->
  len data = 5242881 ->
  exists rep w' front final,
    upload gz self fs w = (Ok rep, w') /\
    payloads gz (read_chunks data) (gz_open gz) (gz_header gz) = front ++ [final] /\
    Forall (fun d => 5242880 < len d) front /\
    parts rep = part_records (etag w) 1 (front ++ [final]) /\
    map PartNumber (parts rep) = seqZ 1 (len (front ++ [final])) /\
    (length (parts rep) = 2%nat <-> length front = 1%nat) /\
    concat (front ++ [final]) = gz_member gz (read_chunks data) /\
    objects w' !! (_bucket (_s3_target self), _key (_s3_target self)) =
      Some {| body := gz_member gz (read_chunks data);
              tagset := [(S3_TAG_UNCOMPRESSED_SIZE, "5242881"%string)] |}.
Proof.
  intros Hf Hnone Hfs Hlen.
  destruct (upload_runs_fresh gz self fs w data Hf Hfs)
    as (rep & w' & Hrun & _ & _ & _ & Hps & Ho).
  { intros obj Hobj. rewrite Hnone in Hobj. done. }
  destruct (payloads_sizes gz (read_chunks data) (gz_open gz) (gz_header gz))
    as (front & final & Hds & Hbig).
  exists rep, w', front, final. rewrite Hds in Hps.
  split; [done|]. split; [done|]. split; [by rewrite <- trigger_value|].
  split; [done|]. split; [by rewrite Hps, part_records_numbers|].
  split.
  { rewrite Hps, part_records_length, length_app. simpl. lia. }
  split; [rewrite <- Hds; apply gz_member_payloads|].
  rewrite Ho, lookup_insert_eq, Hlen. reflexivity.
Qed.

End TriggerPlusOne.

(** The theorem at the file of zero bytes, through the writer that keeps its
    output back: one part. *)
Lemma parts_of_trigger_plus_one_file_witness :
  exists rep w',
    S3DiffUploader.upload Stored.writer sample_uploader zero_files empty_store
      = (Ok rep, w') /\
    length (S3DiffUploader.parts rep) = 1%nat.
Proof.
  assert (Hf : no_faults empty_store) by (intros i; reflexivity).
  assert (Hfs : zero_files !! S3DiffUploader._src sample_uploader = Some (zeros 5242881))
    by apply lookup_singleton_eq.
  destruct (parts_of_trigger_plus_one_file Stored.writer sample_uploader zero_files
              empty_store (zeros 5242881) Hf eq_refl Hfs (len_zeros 5242881 ltac:(lia)))
    as (rep & w' & front & final & Hrun & Hds & _ & Hps & _).
  exists rep, w'. split; [exact Hrun|].
  rewrite payloads_held_back in Hds.
  - rewrite Hps, <- Hds. reflexivity.
  - apply StoredFacts.held_back.
  - rewrite trigger_value. change (len (gz_header Stored.writer)) with 2. lia.
Defined.

(* ===================================================================== *)
(** ** The handle                                      *)
(* ===================================================================== *)

(** A store that holds one object, refuses nothing, and gives every part the
    same content identifier. *)
Definition plain_store (bucket key : string) (o : S3.Object) : S3.state :=
  {| S3.objects := {[ (bucket, key) := o ]}; S3.uploads := []; S3.history := [];
     S3.faults := fun _ => None; S3.etag := fun _ => "etag"%string |}.

(** An object of three bytes tagged with 12, besides a tag of another key. *)
Definition small_object : S3.Object :=
  {| S3.body := [x1f; x8b; x00];
     S3.tagset := [("owner"%string, "ops"%string);
                   (S3_TAG_UNCOMPRESSED_SIZE, "12"%string)] |}.

Section HandleFacts.

Import S3 S3Facts S3Object S3ObjectFacts.

(** [size] trusts its cache and never raises for an object that is gone.
    With a size in the cache and no refresh asked it answers from the cache
    and asks the service nothing, whatever the store holds by now.  On an
    object that is absent, a refresh, or a first call, makes one probe and
    then answers with the cache as it was before, [None] on a handle that
    never found the object: the caller gets no error and no fresh size. *)
Theorem size_answers_from_cache t w :
  (forall n, _size t = Some n -> size t false w = (Ok (Some n, t), w)) /\
  (addressable t -> no_faults w -> objects w !! (_bucket t, _key t) = None ->
   let probed := log (HeadObject (_bucket t) (_key t)) (Refused "404") w in
   size t true w = (Ok (_size t, t), probed) /\
   (_size t = None -> size t false w = (Ok (None, t), probed))).
Proof.
  split; [intros n Hn; by apply size_cached|].
  intros _ Hf Hnone probed.
  assert (Hprobe : forall refresh, _size t = None \/ refresh = true ->
            size t refresh w = (Ok (_size t, t), probed)).
  { intros refresh Hr. unfold size.
    assert (bool_decide (_size t = None) || refresh = true) as ->.
    { destruct Hr as [Hn | ->]; [|apply orb_true_r].
      rewrite bool_decide_eq_true_2; done. }
    erewrite bind_ok; [done|].
    erewrite bind_ok; [|by apply exists_absent]. done. }
  split; [apply Hprobe; by right|].
  intros Hn. rewrite Hprobe by (by left). by rewrite Hn.
Qed.

Lemma size_answers_from_cache_witness :
  size (set_size (Some 7) sample_handle) true empty_store
  = (Ok (Some 7, set_size (Some 7) sample_handle),
     log (HeadObject "bkt" "logs/app.log.gz") (Refused "404") empty_store).
Proof.
  destruct (size_answers_from_cache (set_size (Some 7) sample_handle) empty_store)
    as (_ & Habsent).
  destruct Habsent as (Hrefresh & _).
  - split; reflexivity.
  - intros i. reflexivity.
  - reflexivity.
  - exact Hrefresh.
Defined.

(** Writing the size tag and reading it back: on an object that exists,
    [set_uncompressed_size n] leaves the bytes of the object alone and makes
    its tag set the one size tag, whatever tags it had; [_get_bytes_from_tag]
    then returns [n], and so does [get_uncompressed_size] for a key that ends
    in ".gz".  This holds for every integer [n] of at most 4300 digits, the
    negative ones too; CPython formats no longer one. *)
Theorem size_tag_round_trip t n w obj :
  no_faults w ->
  objects w !! (_bucket t, _key t) = Some obj ->
  Z.abs n < 10 ^ Z.of_nat Py.MAX_STR_DIGITS ->
  exists w1,
    set_uncompressed_size t n w = (Ok tt, w1) /\
    objects w1 =
      <[(_bucket t, _key t) :=
          {| body := body obj; tagset := [(S3_TAG_UNCOMPRESSED_SIZE, Py.str n)] |}]>
        (objects w) /\
    _get_bytes_from_tag t w1 =
      (Ok n, log (GetObjectTagging (_bucket t) (_key t)) Served w1) /\
    (Py.endswith (_key t) ".gz" = true ->
     get_uncompressed_size t w1 =
       (Ok (Some n), log (GetObjectTagging (_bucket t) (_key t)) Served w1)).
Proof.
  intros Hf Hobj Hlim. eexists. split; [by apply set_uncompressed_size_ok|].
  split; [done|].
  assert (Hread : forall w1 : state, no_faults w1 ->
    objects w1 !! (_bucket t, _key t) =
      Some {| body := body obj; tagset := [(S3_TAG_UNCOMPRESSED_SIZE, Py.str n)] |} ->
    _get_bytes_from_tag t w1 =
      (Ok n, log (GetObjectTagging (_bucket t) (_key t)) Served w1)).
  { intros w1 Hf1 Ho1.
    eapply get_bytes_from_tag_ok;
      [done | exact Ho1 | reflexivity | by apply PyFacts.int_str]. }
  split.
  - apply Hread; [done|]. simpl. apply lookup_insert_eq.
  - intros Hgz. unfold get_uncompressed_size. rewrite Hgz.
    erewrite bind_ok; [reflexivity|].
    apply Hread; [done|]. simpl. apply lookup_insert_eq.
Qed.

Lemma size_tag_round_trip_witness :
  exists w1,
    set_uncompressed_size sample_handle (-40)
      (plain_store "bkt" "logs/app.log.gz" small_object) = (Ok tt, w1) /\
    get_uncompressed_size sample_handle w1 =
      (Ok (Some (-40)), log (GetObjectTagging "bkt" "logs/app.log.gz") Served w1).
Proof.
  destruct (size_tag_round_trip sample_handle (-40)
              (plain_store "bkt" "logs/app.log.gz" small_object) small_object)
    as (w1 & Hset & _ & _ & Hget).
  - intros i. reflexivity.
  - apply lookup_singleton_eq.
  - apply Z.ltb_lt. vm_compute. reflexivity.
  - exists w1. split; [exact Hset | exact (Hget eq_refl)].
Defined.


End HandleFacts.

(** The reads of the loop: every chunk has at least one byte and at most
    8192, and the chunks are the file, in order. *)
Theorem read_chunks_cover_file data :
  concat (read_chunks data) = data /\
  Forall (fun chunk => (0 < length chunk <= READ_SIZE)%nat) (read_chunks data) /\
  (read_chunks data = [] <-> data = []).
Proof.
  split; [apply read_chunks_concat|].
  assert (H : forall fuel d,
    Forall (fun chunk => (0 < length chunk <= READ_SIZE)%nat) (read_all fuel d)).
  { induction fuel as [|fuel IH]; intros [|b d]; try by constructor.
    rewrite read_all_cons. constructor; [|apply IH].
    rewrite length_take. pose proof READ_SIZE_pos. simpl length. lia. }
  split; [apply H|].
  unfold read_chunks. destruct data as [|b d]; [done|].
  simpl length. rewrite read_all_cons. done.
Qed.

(* ===================================================================== *)
(** ** What a run leaves alone                         *)
(* ===================================================================== *)

(** [others_kept bucket key id w w']: from [w] to [w'] no object but
    [bucket]/[key] and no upload but [id] has changed, and no upload has been
    added. *)
Definition others_kept (bucket key : string) (id : nat) (w w' : S3.state) : Prop :=
  (forall k, k <> (bucket, key) -> S3.objects w' !! k = S3.objects w !! k) /\
  (forall i, i <> id -> S3.uploads w' !! i = S3.uploads w !! i) /\
  length (S3.uploads w') = length (S3.uploads w).

Section Frames.

Import S3 S3Facts S3Object S3ObjectFacts S3DiffUploader.

Lemma others_kept_refl bucket key id w : others_kept bucket key id w w.
Proof. done. Qed.

Lemma others_kept_trans bucket key id w1 w2 w3 :
  others_kept bucket key id w1 w2 -> others_kept bucket key id w2 w3 ->
  others_kept bucket key id w1 w3.
Proof.
  intros (Ho1 & Hu1 & Hl1) (Ho2 & Hu2 & Hl2). split; [|split].
  - intros k Hk. by rewrite Ho2, Ho1.
  - intros i Hi. by rewrite Hu2, Hu1.
  - by rewrite Hl2, Hl1.
Qed.

Lemma others_kept_log bucket key id r o w w' :
  others_kept bucket key id w w' -> others_kept bucket key id w (log r o w').
Proof. done. Qed.

Lemma others_kept_upload bucket key id u w :
  others_kept bucket key id w (set_uploads <[id := u]> w).
Proof.
  split; [done|]. split; simpl.
  - intros i Hi. by apply list_lookup_insert_ne.
  - apply length_insert.
Qed.

Lemma others_kept_object bucket key id o w :
  others_kept bucket key id w (set_objects <[(bucket, key) := o]> w).
Proof.
  split; [|done]. intros k Hk. simpl. by apply lookup_insert_ne.
Qed.

Context (gz : GzipFile).

Lemma finish_frame t id total c s ps w res w' :
  finish gz t id total c s ps w = (res, w') ->
  others_kept (_bucket t) (_key t) id w w'.
Proof.
  unfold finish. intros H.
  apply bind_inv in H as [([p buf] & w1 & Hc & H) | (e & Hc & ->)];
    apply upload_part_inv in Hc as [(u & Hu & Hr & ->) | (e' & code & Hr & ->)];
    try discriminate; [|done].
  set (w1 := log _ Served _) in H.
  assert (K1 : others_kept (_bucket t) (_key t) id w w1)
    by apply others_kept_log, others_kept_upload.
  apply bind_inv in H as [([] & w2 & Hc & H) | (e & Hc & ->)];
    apply complete_inv in Hc
      as [(u' & ds & Hu' & Hg & Hs & Hr2 & ->) | (e' & code & Hr2 & ->)];
    try discriminate; [|by apply others_kept_log].
  set (w2 := log _ Served _) in H.
  assert (K2 : others_kept (_bucket t) (_key t) id w w2).
  { eapply others_kept_trans; [exact K1|]. apply others_kept_log.
    eapply others_kept_trans; [apply others_kept_upload | apply others_kept_object]. }
  apply bind_inv in H as [([] & w3 & Hc & H) | (e & Hc & ->)];
    apply set_uncompressed_size_inv in Hc
      as [(obj & Ho & Hr3 & ->) | (e' & code & Hr3 & ->)];
    try discriminate; [|by apply others_kept_log].
  injection H as <- <-.
  eapply others_kept_trans; [exact K2|]. apply others_kept_log, others_kept_object.
Qed.

Lemma stream_loop_frame t id total chunks : forall c s ps w res w',
  stream_loop gz t id total chunks c s ps w = (res, w') ->
  others_kept (_bucket t) (_key t) id w w'.
Proof.
  induction chunks as [|chunk rest IH]; intros c s ps w res w' H.
  - by eapply finish_frame.
  - simpl in H.
    apply bind_inv in H as [([[c1 s1] ps1] & w1 & Hc & H) | (e & Hc & ->)];
      apply write_chunk_inv in Hc; simpl in Hc;
      destruct (MULTIPART_TRIGGER_SIZE <? len (s ++ (gz_write gz c chunk).2)).
    + destruct Hc as [(u & Hu & Hr & ->) | (e' & code & Hr & _)]; [|discriminate].
      eapply others_kept_trans; [|by eapply IH].
      apply others_kept_log, others_kept_upload.
    + destruct Hc as [_ ->]. by eapply IH.
    + destruct Hc as [(u & Hu & Hr & _) | (e' & code & Hr & ->)]; [discriminate|].
      done.
    + destruct Hc as [Hr _]. discriminate.
Qed.

Lemma plan_frame t id w res w' :
  plan t id w = (res, w') -> others_kept (_bucket t) (_key t) id w w'.
Proof.
  intros H. apply plan_inv in H as (evs & _ & Ho & _ & _ & _ & Hres).
  assert (K : forall us, uploads w' = us ->
            (us = uploads w \/ exists u, us = <[id := u]> (uploads w)) ->
            others_kept (_bucket t) (_key t) id w w').
  { intros us Hus Hcase. split; [intros k _; by rewrite Ho|].
    rewrite Hus. destruct Hcase as [-> | (u & ->)]; [done|]. split.
    - intros i Hi. by apply list_lookup_insert_ne.
    - apply length_insert. }
  destruct res as [[[start ps] t'] | e].
  - destruct Hres as (_ & _ & [(o & _ & _ & _ & Hu) | (obj & u & _ & _ & _ & _ & Hu & _)]);
      eapply K; eauto.
  - eapply K; eauto.
Qed.

(** A run, however it ends, changes no object but its target and none of the
    uploads that were there before it; it adds at most one upload, its own. *)
Theorem run_touches_only_its_target self fs w :
  let t := _s3_target self in
  let w' := (upload gz self fs w).2 in
  (forall k, k <> (_bucket t, _key t) -> objects w' !! k = objects w !! k) /\
  (forall i u, uploads w !! i = Some u -> uploads w' !! i = Some u) /\
  (length (uploads w') <= length (uploads w) + 1)%nat.
Proof.
  intros t w'. subst w'.
  destruct (upload gz self fs w) as [res w'] eqn:H. simpl.
  unfold upload in H. fold t in H.
  apply bind_inv in H as [(id & w1 & Hc & H) | (e1 & Hc & _)];
    apply start_multipart_upload_inv in Hc as [(Hid & ->) | (e' & code & Hr & ->)];
    try discriminate.
  2:{ split; [done|]. split; [done|]. simpl. lia. }
  injection Hid as ->.
  set (id := length (uploads w)) in *. set (w1 := log _ Served _) in H.
  assert (K : forall w2, others_kept (_bucket t) (_key t) id w1 w2 ->
    (forall k, k <> (_bucket t, _key t) -> objects w2 !! k = objects w !! k) /\
    (forall i u, uploads w !! i = Some u -> uploads w2 !! i = Some u) /\
    (length (uploads w2) <= length (uploads w) + 1)%nat).
  { intros w2 (Ho & Hu & Hl). split; [exact Ho|]. split.
    - intros i u Hi. pose proof (lookup_lt_Some _ _ _ Hi) as Hlt.
      rewrite Hu by (subst id; lia). subst w1. simpl. by rewrite lookup_app_l.
    - rewrite Hl. subst w1. simpl. rewrite length_app. simpl. lia. }
  apply bind_inv in H as [([[start ps] t2] & w2 & Hc & H) | (e1 & Hc & ->)].
  2:{ apply K. by eapply plan_frame. }
  pose proof (plan_frame _ _ _ _ _ Hc) as K2.
  apply plan_inv in Hc as (_ & _ & _ & _ & _ & _ & Hb2 & Hk2 & _).
  assert (Hpure : forall A (m : M state A) r w3,
            (forall w0, exists r0, m w0 = (r0, w0)) -> m w2 = (r, w3) -> w3 = w2).
  { intros A m r w3 Hm Hrun. destruct (Hm w2) as (r0 & Hr0). congruence. }
  apply bind_inv in H as [(n & w3 & Hc & H) | (e1 & Hc & ->)].
  2:{ apply Hpure in Hc as ->; [by apply K|]. intros w0. unfold os_stat_size.
      destruct (fs !! _src self); eauto. }
  apply Hpure in Hc as ->.
  2:{ intros w0. unfold os_stat_size. destruct (fs !! _src self); eauto. }
  apply bind_inv in H as [(data & w3 & Hc & H) | (e1 & Hc & ->)].
  2:{ apply Hpure in Hc as ->; [by apply K|]. intros w0. unfold open_rb.
      destruct (fs !! _src self); eauto. }
  apply Hpure in Hc as ->.
  2:{ intros w0. unfold open_rb. destruct (fs !! _src self); eauto. }
  apply bind_inv in H as [(input & w3 & Hc & H) | (e1 & Hc & ->)].
  2:{ apply Hpure in Hc as ->; [by apply K|]. intros w0. unfold seek.
      destruct start as [s|]; [destruct (_ || _); [|destruct (s <? 0)]|]; eauto. }
  apply Hpure in Hc as ->.
  2:{ intros w0. unfold seek.
      destruct start as [s|]; [destruct (_ || _); [|destruct (s <? 0)]|]; eauto. }
  apply bind_inv in H as [(ps' & w3 & Hc & H) | (e1 & Hc & ->)];
    apply stream_loop_frame in Hc; rewrite Hb2, Hk2 in Hc.
  2:{ apply K. by eapply others_kept_trans. }
  apply bind_inv in H as [([sz t4] & w4 & Hc' & H) | (e1 & Hc' & ->)];
    apply size_refresh_inv in Hc' as (o & ->).
  - injection H as <- <-. apply K, others_kept_log.
    by eapply others_kept_trans.
  - apply K, others_kept_log. by eapply others_kept_trans.
Qed.

End Frames.

(* ===================================================================== *)
(** ** Whole runs against a service that refuses nothing *)
(* ===================================================================== *)

Section WholeRuns.

Import S3 S3Facts S3Object S3ObjectFacts S3DiffUploader.

Context (gz : GzipFile).

(** The upload a run creates, as the service first holds it. *)
Definition new_upload (t : S3Object.t) : Upload :=
  {| up_bucket := _bucket t; up_key := _key t; up_parts := []; up_open := true |}.



(** A local file that is shorter than the starting byte (it was truncated or
    replaced) is not noticed.  For a starting byte past the end of the file
    and up to [2^31 - 1], an offset every file system takes: the run returns,
    it reads nothing, the object is the old object followed by the gzip
    member of no bytes, the parts are the copy and that member, and the tag
    is set to the size of the file, which is less than the starting byte. *)
Theorem shrunk_file_goes_unnoticed self fs w data obj start :
  no_faults w ->
  fs !! _src self = Some data ->
  let t := _s3_target self in
  objects w !! (_bucket t, _key t) = Some obj ->
  MULTIPART_TRIGGER_SIZE < len (body obj) ->
  (if Py.endswith (_key t) ".gz"
   then exists v, tag_value (tagset obj) = Some v /\ Py.int v = Some start
   else start = len (body obj)) ->
  len data < start <= 2 ^ 31 - 1 ->
  exists rep w',
    upload gz self fs w = (Ok rep, w') /\
    parts rep =
      [{| PartNumber := 1; ETag := etag w (body obj) |};
       {| PartNumber := 2; ETag := etag w (gz_member gz []) |}] /\
    objects w' =
      <[(_bucket t, _key t) :=
          {| body := body obj ++ gz_member gz [];
             tagset := [(S3_TAG_UNCOMPRESSED_SIZE, Py.str (len data))] |}]> (objects w).
Proof.
  intros Hf Hfs t Hobj Hbig Hstart Hshort.
  assert (Hpos : 0 <= start <= OFF_T_MAX).
  { pose proof (len_nonneg data). unfold OFF_T_MAX. lia. }
  destruct (upload_runs_resume gz self fs w data obj start Hf Hfs Hobj Hbig Hstart Hpos)
    as (rep & w' & Hrun & _ & _ & _ & Hps & Ho).
  assert (Hnil : drop (Z.to_nat start) data = []).
  { apply drop_ge. unfold len in Hshort. lia. }
  rewrite Hnil, read_chunks_nil in Hps, Ho.
  exists rep, w'. split; [done|]. split; [|done].
  rewrite Hps. reflexivity.
Qed.

(** The upload is created before the local file is looked at: when the file
    is missing and the destination, one the client accepts, is absent or
    small, the run raises [FileNotFoundError] after two requests, the
    creation of the upload and the probe; no object has changed, and the
    upload stays behind, open and empty. *)
Theorem missing_file_leaves_upload_open self fs w :
  no_faults w ->
  fs !! _src self = None ->
  let t := _s3_target self in
  addressable t ->
  (forall obj, objects w !! (_bucket t, _key t) = Some obj ->
               len (body obj) <= MULTIPART_TRIGGER_SIZE) ->
  exists w' o,
    upload gz self fs w = (Raise FileNotFoundError, w') /\
    events_since w w' =
      [(CreateMultipartUpload (_bucket t) (_key t), Served);
       (HeadObject (_bucket t) (_key t), o)] /\
    objects w' = objects w /\
    uploads w' = uploads w ++ [new_upload t].
Proof.
  intros Hf Hfs t _ Hsmall. unfold upload. fold t.
  unfold start_multipart_upload, create_multipart_upload.
  erewrite bind_ok; [|by apply call_ok]. cbv beta iota.
  set (id := length (uploads w)). set (w1 := log _ Served _).
  assert (Hf1 : no_faults w1) by done.
  assert (Hs1 : step w w1 [(CreateMultipartUpload (_bucket t) (_key t), Served)])
    by step_tac.
  destruct (plan_runs_fresh t id w1 Hf1 Hsmall) as (t2 & w2 & Hplan).
  erewrite bind_ok; [|exact Hplan]. cbv beta iota.
  apply plan_inv in Hplan as (evs2 & Hs2 & Ho2 & _ & _ & _ & _ & _ & Hcases).
  destruct Hcases as [(o & _ & _ & -> & Hup) | (obj & u & _ & _ & _ & Hps & _)];
    [|discriminate].
  unfold os_stat_size. rewrite Hfs.
  erewrite bind_raise; [|done].
  exists w2, o. split; [done|].
  split; [exact (step_events _ _ _ (step_trans _ _ _ _ _ Hs1 Hs2))|].
  split; [by rewrite Ho2|]. by rewrite Hup.
Qed.

Lemma plan_raises_on_unreadable_tag t id w obj :
  no_faults w ->
  objects w !! (_bucket t, _key t) = Some obj ->
  MULTIPART_TRIGGER_SIZE < len (body obj) ->
  Py.endswith (_key t) ".gz" = true ->
  (forall v, tag_value (tagset obj) = Some v -> Py.int v = None) ->
  plan t id w =
    (Raise (match tag_value (tagset obj) with
            | Some _ => ValueError
            | None => IndexError
            end),
     log (GetObjectTagging (_bucket t) (_key t)) Served
       (log (HeadObject (_bucket t) (_key t)) Served w)).
Proof.
  intros Hf Hobj Hbig Hgz Htag. unfold plan.
  erewrite bind_ok; [|by eapply (exists_found t w obj)]. cbv beta iota.
  erewrite bind_ok.
  2:{ erewrite bind_ok; [|by apply size_cached]. done. }
  cbv beta iota.
  destruct (Z.ltb_spec MULTIPART_TRIGGER_SIZE (len (body obj))); [|lia].
  set (w1 := log (HeadObject (_bucket t) (_key t)) Served w).
  assert (Hread : get_uncompressed_size (set_size (Some (len (body obj))) t) w1 =
    (Raise (match tag_value (tagset obj) with
            | Some _ => ValueError
            | None => IndexError
            end),
     log (GetObjectTagging (_bucket t) (_key t)) Served w1)).
  { unfold get_uncompressed_size. cbn [_key _bucket _size set_size]. rewrite Hgz.
    apply bind_raise.
    rewrite (get_bytes_from_tag_raises _ w1 obj); [|done | exact Hobj].
    cbn [_key _bucket _size set_size].
    destruct (tag_value (tagset obj)) as [v|]; [|done].
    by rewrite (Htag v eq_refl). }
  by apply bind_raise.
Qed.

(** An object larger than the trigger size under a ".gz" key whose size tag
    is missing, or is an ASCII string that is not the literal of an integer,
    stops the run before anything is copied or read: the run raises
    [IndexError], or [ValueError], after three requests; no object has
    changed; the upload stays behind, open and empty.  Whether the local file
    exists plays no part. *)
Theorem resume_needs_readable_tag self fs w obj :
  no_faults w ->
  let t := _s3_target self in
  objects w !! (_bucket t, _key t) = Some obj ->
  MULTIPART_TRIGGER_SIZE < len (body obj) ->
  Py.endswith (_key t) ".gz" = true ->
  (forall v, tag_value (tagset obj) = Some v ->
             Py.isascii v = true /\ Py.int v = None) ->
  exists w',
    upload gz self fs w =
      (Raise (match tag_value (tagset obj) with
              | Some _ => ValueError
              | None => IndexError
              end), w') /\
    events_since w w' =
      [(CreateMultipartUpload (_bucket t) (_key t), Served);
       (HeadObject (_bucket t) (_key t), Served);
       (GetObjectTagging (_bucket t) (_key t), Served)] /\
    objects w' = objects w /\
    uploads w' = uploads w ++ [new_upload t].
Proof.
  intros Hf t Hobj Hbig Hgz Htag. unfold upload. fold t.
  unfold start_multipart_upload, create_multipart_upload.
  erewrite bind_ok; [|by apply call_ok]. cbv beta iota.
  set (id := length (uploads w)). set (w1 := log _ Served _).
  assert (Hf1 : no_faults w1) by done.
  erewrite bind_raise;
    [|by apply (plan_raises_on_unreadable_tag t id w1 obj Hf1 Hobj Hbig Hgz
                  (fun v Hv => proj2 (Htag v Hv)))].
  eexists. split; [done|]. split; [|done].
  unfold events_since. simpl. rewrite <- !app_assoc. simpl.
  by rewrite drop_app_length.
Qed.

(** A size tag that reads as a negative integer stops the run at the seek,
    after the object has been copied into the upload as part 1: the run
    raises [OSError], or [ValueError] when the integer does not fit a file
    offset; no object has changed; the upload stays behind, open, holding the
    copy. *)
Theorem negative_tag_fails_after_copy self fs w data obj v n :
  no_faults w ->
  fs !! _src self = Some data ->
  let t := _s3_target self in
  objects w !! (_bucket t, _key t) = Some obj ->
  MULTIPART_TRIGGER_SIZE < len (body obj) ->
  Py.endswith (_key t) ".gz" = true ->
  tag_value (tagset obj) = Some v -> Py.int v = Some n -> n < 0 ->
  exists w',
    upload gz self fs w =
      (Raise (if n <? OFF_T_MIN then ValueError else OSError), w') /\
    objects w' = objects w /\
    uploads w' = uploads w ++ [store_part 1 (body obj) (new_upload t)].
Proof.
  intros Hf Hfs t Hobj Hbig Hgz Hv Hn Hneg. unfold upload. fold t.
  unfold start_multipart_upload, create_multipart_upload.
  erewrite bind_ok; [|by apply call_ok]. cbv beta iota.
  set (id := length (uploads w)). set (w1 := log _ Served _).
  assert (Hf1 : no_faults w1) by done.
  pose proof (find_upload_created (_bucket t) (_key t) w) as Hu1.
  fold id w1 in Hu1.
  destruct (plan_runs_resume t id w1 obj _ n Hf1 Hobj Hbig Hu1) as (t2 & w2 & Hplan).
  { rewrite Hgz. eauto. }
  erewrite bind_ok; [|exact Hplan]. cbv beta iota.
  apply plan_inv in Hplan as (evs2 & Hs2 & Ho2 & _ & _ & _ & _ & _ & Hcases).
  destruct Hcases as [(o & _ & Hps & _) | (obj' & u & Hobj' & _ & Hu & _ & Hup & _)];
    [discriminate|].
  change (objects w1) with (objects w) in *.
  rewrite Hobj in Hobj'. injection Hobj' as <-.
  rewrite Hu1 in Hu. injection Hu as <-.
  unfold os_stat_size, open_rb. rewrite Hfs.
  erewrite bind_ok; [|done]. cbv beta iota.
  erewrite bind_ok; [|done]. cbv beta iota.
  assert (Hseek : seek data (Some n) w2 =
            (Raise (if n <? OFF_T_MIN then ValueError else OSError), w2)).
  { unfold seek.
    assert (Hmax : (OFF_T_MAX <? n) = false) by (apply Z.ltb_ge; unfold OFF_T_MAX; lia).
    rewrite Hmax, orb_false_r.
    destruct (n <? OFF_T_MIN); [done|].
    destruct (Z.ltb_spec n 0); [done | lia]. }
  erewrite bind_raise; [|exact Hseek].
  exists w2. split; [done|]. split; [by rewrite Ho2|].
  rewrite Hup. subst w1 id. simpl.
  rewrite insert_app_r_alt by lia. by rewrite Nat.sub_diag.
Qed.

End WholeRuns.

(* ===================================================================== *)
(** ** Part sizes, failed runs, runs in sequence       *)
(* ===================================================================== *)

Section PartSizes.

Import S3 S3Facts S3Object S3ObjectFacts S3DiffUploader.

Context (gz : GzipFile).

(** A run never hands the service a part it would find too small: in a run
    that returns, every buffer uploaded before the last is larger than the
    minimum part size of the service, and an object is copied as part 1 only
    when it is larger than that too. *)
Theorem parts_before_last_exceed_minimum self fs w rep w' :
  upload gz self fs w = (Ok rep, w') ->
  let t := _s3_target self in
  let evs := events_since w w' in
  (exists front final,
     omap served_data evs = front ++ [final] /\
     Forall (fun d => MIN_PART_SIZE < len d) front) /\
  (In (UploadPartCopy (_bucket t) (_key t) (_bucket t) (_key t) 1 (mpu_id rep), Served) evs ->
   exists obj, objects w !! (_bucket t, _key t) = Some obj /\
               MIN_PART_SIZE < len (body obj)).
Proof.
  intros H t evs. subst evs.
  apply upload_ok_inv in H
    as (data & s & h1 & h2 & _ & -> & _ & _ & _ & _ & _ & Hcases).
  fold t in Hcases. cbv zeta in Hcases.
  destruct (payloads_sizes gz (read_chunks (drop (Z.to_nat s) data))
              (gz_open gz) (gz_header gz)) as (front & final & Hds & Hbig).
  rewrite Hds in Hcases. rewrite trigger_is_min in Hbig.
  destruct Hcases as [(_ & _ & Hev & _) | (obj & Hobj & Hlarge & _ & _ & Hev)].
  - split.
    + exists front, final. split; [|done].
      rewrite Hev, !omap_app, upload_events_data. simpl. by rewrite app_nil_r.
    + intros Hin. exfalso. rewrite Hev in Hin.
      apply in_app_or in Hin as [Hin | Hin].
      { simpl in Hin. destruct Hin as [[=] | [[=] | []]]. }
      apply in_app_or in Hin as [Hin | Hin].
      { apply upload_events_no_copy in Hin as (m & d & [=]). }
      simpl in Hin. destruct Hin as [[=] | [[=] | [[=] | []]]].
  - split.
    + exists front, final. split; [|done].
      destruct Hev as [(_ & _ & ->) | (_ & v & _ & _ & ->)];
        rewrite !omap_app, upload_events_data; simpl; by rewrite app_nil_r.
    + intros _. exists obj. split; [done|]. by rewrite <- trigger_is_min.
Qed.

End PartSizes.

Section FailedRuns.

Import S3 S3Facts S3Object S3ObjectFacts S3DiffUploader.

Context (gz : GzipFile).

Lemma finish_keeps_upload_open t id total c s ps w e w' u :
  finish gz t id total c s ps w = (Raise e, w') ->
  find_upload (_bucket t) (_key t) id w = Some u ->
  exists evs, step w w' evs /\
    (is_Some (find_upload (_bucket t) (_key t) id w') \/ omap served_complete evs <> []).
Proof.
  unfold finish. intros H Hu.
  apply bind_inv in H as [([p buf] & w1 & Hc & H) | (e1 & Hc & _)];
    apply upload_part_inv in Hc as [(u1 & Hu1 & Hr & ->) | (e' & code & Hr & ->)];
    try discriminate.
  2:{ eexists. split; [apply step_log|]. left. rewrite find_upload_log, Hu. eauto. }
  rewrite Hu in Hu1. injection Hu1 as <-.
  apply bind_inv in H as [([] & w2 & Hc & H) | (e1 & Hc & _)];
    apply complete_inv in Hc
      as [(u' & ds & Hu' & Hg & Hs & Hr2 & ->) | (e' & code & Hr2 & ->)];
    try discriminate.
  2:{ eexists [_; _]. split; [step_tac|]. left.
      rewrite !find_upload_log, (find_upload_store _ _ _ _ _ _ _ Hu). eauto. }
  apply bind_inv in H as [([] & w3 & Hc & H) | (e1 & Hc & _)];
    apply set_uncompressed_size_inv in Hc
      as [(obj & Ho & Hr3 & ->) | (e' & code & Hr3 & ->)];
    try discriminate.
  eexists [_; _; _]. split; [step_tac|]. right. done.
Qed.

Lemma stream_loop_keeps_upload_open t id total chunks : forall c s ps w e w' u,
  stream_loop gz t id total chunks c s ps w = (Raise e, w') ->
  find_upload (_bucket t) (_key t) id w = Some u ->
  exists evs, step w w' evs /\
    (is_Some (find_upload (_bucket t) (_key t) id w') \/ omap served_complete evs <> []).
Proof.
  induction chunks as [|chunk rest IH]; intros c s ps w e w' u H Hu.
  - by eapply finish_keeps_upload_open.
  - simpl in H.
    apply bind_inv in H as [([[c1 s1] ps1] & w1 & Hc & H) | (e1 & Hc & _)];
      apply write_chunk_inv in Hc; simpl in Hc;
      destruct (MULTIPART_TRIGGER_SIZE <? len (s ++ (gz_write gz c chunk).2)).
    + destruct Hc as [(u1 & Hu1 & Hr & ->) | (e' & code & Hr & _)]; [|discriminate].
      rewrite Hu in Hu1. injection Hu1 as <-.
      eapply IH in H as (evs & Hs & Hcase).
      2:{ rewrite find_upload_log. by apply find_upload_store. }
      exists ((UploadPart (_bucket t) (_key t) (len ps + 1) id
                 (s ++ (gz_write gz c chunk).2), Served) :: evs).
      split; [exact (step_trans _ _ _ _ _ (step_log _ _ _) Hs)|].
      destruct Hcase as [Hopen | Hdone]; [by left | right]. by simpl.
    + destruct Hc as [_ ->]. by eapply IH.
    + destruct Hc as [(u1 & _ & Hr & _) | (e' & code & Hr & ->)]; [discriminate|].
      eexists. split; [apply step_log|]. left. rewrite find_upload_log, Hu. eauto.
    + destruct Hc as [Hr _]. discriminate.
Qed.


End FailedRuns.

Section RunsInSequence.

Import S3 S3Facts S3Object S3ObjectFacts S3DiffUploader.

Context (gunzip : list byte -> option (list byte)) (writers : GzipFile -> Prop).
Context (codec : reads_back gunzip writers).
Context (src : string) (dest : ParseResult) (compress : bool).

Let bucket := netloc dest.
Let key := Py.lstrip "/" (path dest).

(** The object stands for [content]: it is gzip members written one after
    the other whose inputs, one after the other, are [content], and its size
    tag is the length of [content]. *)
Definition stands_for (w : state) (content : list byte) : Prop :=
  exists obj (members : list (GzipFile * list (list byte))),
    objects w !! (bucket, key) = Some obj /\
    Forall (fun m => writers m.1) members /\
    body obj = concat (map (fun m => gz_member m.1 m.2) members) /\
    concat (map (fun m => concat m.2) members) = content /\
    tag_value (tagset obj) = Some (Py.str (len content)).

Lemma run_keeps_object_in_step gz w content data :
  writers gz ->
  Py.endswith key ".gz" = true ->
  no_faults w ->
  (objects w !! (bucket, key) = None \/ stands_for w content) ->
  content `prefix_of` data ->
  len data <= OFF_T_MAX ->
  exists rep w',
    upload gz (S3DiffUploader.__init__ src dest compress) {[ src := data ]} w
      = (Ok rep, w') /\
    no_faults w' /\ stands_for w' data.
Proof.
  intros Hgzw Hgz Hf Hstate [more ->] Hfit.
  set (self := S3DiffUploader.__init__ src dest compress).
  set (data := content ++ more) in *.
  assert (Hfs : ({[ src := data ]} : files) !! _src self = Some data)
    by apply lookup_singleton_eq.
  assert (Hfresh : forall w1 : state,
    objects w1 = <[(bucket, key) :=
        {| body := gz_member gz (read_chunks data);
           tagset := [(S3_TAG_UNCOMPRESSED_SIZE, Py.str (len data))] |}]> (objects w) ->
    stands_for w1 data).
  { intros w1 Ho. eexists _, [(gz, read_chunks data)]. rewrite Ho, lookup_insert_eq.
    split; [done|]. split; [by constructor|]. cbn [map concat fst snd].
    rewrite !app_nil_r, read_chunks_concat. done. }
  assert (Hcase :
    (forall obj, objects w !! (bucket, key) = Some obj ->
                 len (body obj) <= MULTIPART_TRIGGER_SIZE) \/
    (exists obj members, objects w !! (bucket, key) = Some obj /\
       MULTIPART_TRIGGER_SIZE < len (body obj) /\
       Forall (fun m => writers m.1) members /\
       body obj = concat (map (fun m => gz_member m.1 m.2) members) /\
       concat (map (fun m => concat m.2) members) = content /\
       tag_value (tagset obj) = Some (Py.str (len content)))).
  { destruct Hstate as [Hnone | (obj & members & Hobj & Hw & Hb & Hc & Ht)].
    - left. intros obj Hobj. rewrite Hnone in Hobj. done.
    - destruct (Z.le_gt_cases (len (body obj)) MULTIPART_TRIGGER_SIZE) as [Hle | Hgt].
      + left. intros obj' Hobj'. rewrite Hobj in Hobj'. by injection Hobj' as <-.
      + right. exists obj, members. done. }
  assert (Hlen : len data = len content + len more) by apply len_app.
  pose proof (len_nonneg content) as Hc0. pose proof (len_nonneg more) as Hm0.
  destruct Hcase as [Hsmall | (obj & members & Hobj & Hbig & Hw & Hb & Hc & Ht)].
  - destruct (upload_runs_fresh gz self {[ src := data ]} w data Hf Hfs Hsmall)
      as (rep & w' & Hrun & Hf' & _ & _ & _ & Ho).
    exists rep, w'. split; [done|]. split; [done|]. by apply Hfresh.
  - destruct (upload_runs_resume gz self {[ src := data ]} w data obj (len content)
                Hf Hfs Hobj Hbig)
      as (rep & w' & Hrun & Hf' & _ & _ & _ & Ho).
    { change (_key (_s3_target self)) with key. rewrite Hgz.
      exists (Py.str (len content)). split; [done|].
      apply PyFacts.int_str, PyFacts.off_t_within_limit. lia. }
    { lia. }
    exists rep, w'. split; [done|]. split; [done|].
    change (_bucket (_s3_target self)) with bucket in Ho.
    change (_key (_s3_target self)) with key in Ho.
    assert (Hdrop : drop (Z.to_nat (len content)) data = more).
    { unfold len. rewrite Nat2Z.id. apply drop_app_length. }
    rewrite Hdrop in Ho.
    eexists _, (members ++ [(gz, read_chunks more)]). rewrite Ho, lookup_insert_eq.
    split; [done|]. split.
    { apply Forall_app. split; [done | by constructor]. }
    cbn [body tagset].
    rewrite !map_app, !concat_app. cbn [map concat fst snd].
    rewrite !app_nil_r, read_chunks_concat.
    split; [by rewrite Hb|]. split; [by rewrite Hc | done].
Qed.

Lemma runs_keep_object_in_step versions : forall w content final,
  Py.endswith key ".gz" = true ->
  no_faults w ->
  (objects w !! (bucket, key) = None \/ stands_for w content) ->
  Forall (fun v => writers v.1 /\ len v.2 <= OFF_T_MAX) versions ->
  append_only (content :: map snd versions) ->
  last (map snd versions) = Some final ->
  exists w', runs src dest compress versions w = (Ok tt, w') /\
             no_faults w' /\ stands_for w' final.
Proof.
  induction versions as [|[gz data] later IH];
    intros w content final Hgz Hf Hstate Hall Happ Hlast; [done|].
  cbn [map snd] in Happ, Hlast.
  pose proof (Happ : content `prefix_of` data /\ append_only (data :: map snd later))
    as [Hpre Happ'].
  apply Forall_cons in Hall as [[Hw Hfit] Hall].
  destruct (run_keeps_object_in_step gz w content data Hw Hgz Hf Hstate Hpre Hfit)
    as (rep & w1 & Hrun & Hf1 & Hst1).
  cbn [runs]. erewrite bind_ok; [|exact Hrun].
  destruct later as [|next later'].
  - simpl in Hlast. injection Hlast as <-. exists w1. done.
  - apply (IH w1 data final Hgz Hf1); [by right | exact Hall | exact Happ' | exact Hlast].
Qed.


End RunsInSequence.

(* ===================================================================== *)
(** ** The theorems above at sample inputs             *)
(* ===================================================================== *)

(** The local file after four more bytes were appended to it. *)
Definition grown_files : files :=
  {[ "app.log"%string := [x68; x65; x6c; x6c; x6f; x20; x79; x6f; x75] ]}.

(** An object larger than the trigger size that carries no tag. *)
Definition untagged_object : S3.Object :=
  {| S3.body := zeros 5242881; S3.tagset := [] |}.

(** An object larger than the trigger size whose size tag reads as -3. *)
Definition negative_object : S3.Object :=
  {| S3.body := zeros 5242881;
     S3.tagset := [(S3_TAG_UNCOMPRESSED_SIZE, "-3"%string)] |}.

Lemma zeros_above_trigger : MULTIPART_TRIGGER_SIZE < len (zeros 5242881).
Proof. rewrite len_zeros, trigger_value; lia. Qed.

Lemma small_object_below_trigger :
  len (S3.body small_object) <= MULTIPART_TRIGGER_SIZE.
Proof. rewrite trigger_value. unfold len. simpl. lia. Qed.

Lemma plain_store_no_faults bucket key o : no_faults (plain_store bucket key o).
Proof. intros i. reflexivity. Qed.

Lemma plain_store_holds bucket key o obj :
  S3.objects (plain_store bucket key o) !! (bucket, key) = Some obj -> obj = o.
Proof.
  unfold plain_store. simpl. rewrite lookup_singleton_eq. by intros [= <-].
Qed.

Lemma sample_handle_addressable : addressable sample_handle.
Proof. split; reflexivity. Qed.



Lemma shrunk_file_goes_unnoticed_witness :
  exists rep w',
    S3DiffUploader.upload Stored.writer sample_uploader sample_files
      (plain_store "bkt" "logs/app.log.gz" large_object) = (Ok rep, w') /\
    S3.objects w' !! ("bkt"%string, "logs/app.log.gz"%string) =
      Some {| S3.body := zeros 5242881 ++ gz_member Stored.writer [];
              S3.tagset := [(S3_TAG_UNCOMPRESSED_SIZE, "5"%string)] |}.
Proof.
  destruct (shrunk_file_goes_unnoticed Stored.writer sample_uploader sample_files
              (plain_store "bkt" "logs/app.log.gz" large_object)
              [x68; x65; x6c; x6c; x6f] large_object 7)
    as (rep & w' & Hrun & _ & Ho).
  - apply plain_store_no_faults.
  - apply lookup_singleton_eq.
  - apply lookup_singleton_eq.
  - apply zeros_above_trigger.
  - exists "7"%string. split; reflexivity.
  - done.
  - exists rep, w'. split; [exact Hrun|]. rewrite Ho. apply lookup_insert_eq.
Defined.

Lemma missing_file_leaves_upload_open_witness :
  exists w',
    S3DiffUploader.upload Stored.writer sample_uploader ∅
      (plain_store "bkt" "logs/app.log.gz" small_object)
      = (Raise FileNotFoundError, w') /\
    S3.uploads w' = [new_upload sample_handle].
Proof.
  destruct (missing_file_leaves_upload_open Stored.writer sample_uploader ∅
              (plain_store "bkt" "logs/app.log.gz" small_object))
    as (w' & o & Hrun & _ & _ & Hu).
  - apply plain_store_no_faults.
  - reflexivity.
  - apply sample_handle_addressable.
  - intros obj Hobj.
    rewrite (plain_store_holds "bkt" "logs/app.log.gz" small_object obj Hobj).
    apply small_object_below_trigger.
  - exists w'. split; [exact Hrun | exact Hu].
Defined.

Lemma resume_needs_readable_tag_witness :
  exists w',
    S3DiffUploader.upload Stored.writer sample_uploader sample_files
      (plain_store "bkt" "logs/app.log.gz" untagged_object) = (Raise IndexError, w') /\
    S3.objects w' = {[ ("bkt"%string, "logs/app.log.gz"%string) := untagged_object ]}.
Proof.
  destruct (resume_needs_readable_tag Stored.writer sample_uploader sample_files
              (plain_store "bkt" "logs/app.log.gz" untagged_object) untagged_object)
    as (w' & Hrun & _ & Ho & _).
  - apply plain_store_no_faults.
  - apply lookup_singleton_eq.
  - apply zeros_above_trigger.
  - reflexivity.
  - intros v Hv. discriminate Hv.
  - exists w'. split; [exact Hrun | exact Ho].
Defined.

Lemma negative_tag_fails_after_copy_witness :
  exists w',
    S3DiffUploader.upload Stored.writer sample_uploader sample_files
      (plain_store "bkt" "logs/app.log.gz" negative_object) = (Raise OSError, w') /\
    S3.uploads w' =
      [] ++ [S3.store_part 1 (S3.body negative_object)
               (new_upload (S3DiffUploader._s3_target sample_uploader))].
Proof.
  destruct (negative_tag_fails_after_copy Stored.writer sample_uploader sample_files
              (plain_store "bkt" "logs/app.log.gz" negative_object)
              [x68; x65; x6c; x6c; x6f] negative_object "-3"%string (-3))
    as (w' & Hrun & _ & Hu).
  - apply plain_store_no_faults.
  - apply lookup_singleton_eq.
  - apply lookup_singleton_eq.
  - apply zeros_above_trigger.
  - reflexivity.
  - reflexivity.
  - reflexivity.
  - done.
  - exists w'. split; [exact Hrun | exact Hu].
Defined.

Lemma parts_before_last_exceed_minimum_witness :
  exists rep w',
    S3DiffUploader.upload Stored.writer sample_uploader grown_files
      (plain_store "bkt" "logs/app.log.gz" large_object) = (Ok rep, w') /\
    exists front final,
      omap served_data
        (events_since (plain_store "bkt" "logs/app.log.gz" large_object) w')
        = front ++ [final] /\
      Forall (fun d => S3.MIN_PART_SIZE < len d) front.
Proof.
  destruct (upload_runs_resume Stored.writer sample_uploader grown_files
              (plain_store "bkt" "logs/app.log.gz" large_object)
              [x68; x65; x6c; x6c; x6f; x20; x79; x6f; x75] large_object 7)
    as (rep & w' & Hrun & _).
  - apply plain_store_no_faults.
  - apply lookup_singleton_eq.
  - apply lookup_singleton_eq.
  - apply zeros_above_trigger.
  - exists "7"%string. split; reflexivity.
  - done.
  - exists rep, w'. split; [exact Hrun|].
    exact (proj1 (parts_before_last_exceed_minimum Stored.writer sample_uploader
                    grown_files _ rep w' Hrun)).
Defined.


